(** * Radioaficionados DMR Chile: the fetch, filter, export and count pipeline of [app.py]

    The Streamlit script is embedded as pure functions over explicit inputs:
    the reply of the HTTP call, the widgets' values, and the frame they act on.
    Library behaviour the script relies on (Python [str], [re], [requests],
    pandas) is written out for the fragment the script exercises; every such
    definition says which library call it stands for. *)

From Stdlib Require Import List Bool Arith NArith Lia String Ascii.
From Stdlib Require Import Sorted Permutation.
Import ListNotations.

Set Implicit Arguments.

(* ================================================================== *)
(** ** Python [str]: sequences of Unicode code points *)
(* ================================================================== *)

Module PyStr.

Definition pystr := list N.

(** An ASCII literal of the source, as code points. *)
Definition py (s : string) : pystr := map N_of_ascii (list_ascii_of_string s).

Fixpoint str_eqb (a b : pystr) : bool :=
  match a, b with
  | [], [] => true
  | x :: a', y :: b' => N.eqb x y && str_eqb a' b'
  | _, _ => false
  end.

(** [x in xs] for a list of strings. *)
Definition mem (x : pystr) (xs : list pystr) : bool := existsb (str_eqb x) xs.

(** [str.isspace] for one code point: the ASCII table of CPython
    (TAB..CR, FS..US, SPACE) and the Unicode white-space code points. *)
Definition is_space (c : N) : bool :=
  ((9 <=? c) && (c <=? 13) || (28 <=? c) && (c <=? 32)
   || (c =? 133) || (c =? 160) || (c =? 5760)
   || (8192 <=? c) && (c <=? 8202)
   || (c =? 8232) || (c =? 8233) || (c =? 8239) || (c =? 8287) || (c =? 12288))%N.

Fixpoint lstrip (s : pystr) : pystr :=
  match s with
  | c :: s' => if is_space c then lstrip s' else s
  | [] => []
  end.

Definition rstrip (s : pystr) : pystr := rev (lstrip (rev s)).

(** [str.strip()] *)
Definition strip (s : pystr) : pystr := rstrip (lstrip s).

Fixpoint startswith (p s : pystr) : bool :=
  match p, s with
  | [], _ => true
  | x :: p', y :: s' => N.eqb x y && startswith p' s'
  | _ :: _, [] => false
  end.

(** [p in s]: [p] occurs in [s] as a contiguous run. *)
Fixpoint occurs (p s : pystr) : bool :=
  startswith p s || match s with [] => false | _ :: s' => occurs p s' end.

(** [str.upper()] maps every code point through the Unicode upper-case
    table, which may give several code points for one (U+00DF gives "SS").
    The table is a parameter of everything that uppercases. *)
Definition case_table := N -> list N.

Definition upper (tbl : case_table) (s : pystr) : pystr := flat_map tbl s.

Definition ascii_upper (c : N) : N :=
  if ((97 <=? c) && (c <=? 122))%N then (c - 32)%N else c.

(** What the claims need of the table: it is CPython's on ASCII. *)
Definition ascii_case (tbl : case_table) : Prop :=
  forall c, (c < 128)%N -> tbl c = [ascii_upper c].

(** The table for Basic Latin and Latin-1 Supplement (U+0000..U+00FF), the
    identity above; used where a closed example needs a concrete table. *)
Definition latin1_table : case_table := fun c =>
  if (c <? 128)%N then [ascii_upper c]
  else if (c =? 181)%N then [924%N]
  else if (c =? 223)%N then [83%N; 83%N]
  else if (c =? 255)%N then [376%N]
  else if ((224 <=? c) && (c <=? 254) && negb (c =? 247))%N then [(c - 32)%N]
  else [c].

(** Generic three-way lexicographic comparison; [str] compares by code point. *)
Section Lex.
Variable A : Type.
Variable cmp : A -> A -> comparison.

Fixpoint lex (a b : list A) : comparison :=
  match a, b with
  | [], [] => Eq
  | [], _ :: _ => Lt
  | _ :: _, [] => Gt
  | x :: a', y :: b' =>
      match cmp x y with
      | Eq => lex a' b'
      | c => c
      end
  end.
End Lex.

Definition str_compare : pystr -> pystr -> comparison := lex N.compare.

(** Decimal rendering of a status code, as [str(int)]. *)
Fixpoint digits (d : Decimal.uint) : pystr :=
  match d with
  | Decimal.Nil => []
  | Decimal.D0 d' => 48%N :: digits d'
  | Decimal.D1 d' => 49%N :: digits d'
  | Decimal.D2 d' => 50%N :: digits d'
  | Decimal.D3 d' => 51%N :: digits d'
  | Decimal.D4 d' => 52%N :: digits d'
  | Decimal.D5 d' => 53%N :: digits d'
  | Decimal.D6 d' => 54%N :: digits d'
  | Decimal.D7 d' => 55%N :: digits d'
  | Decimal.D8 d' => 56%N :: digits d'
  | Decimal.D9 d' => 57%N :: digits d'
  end.

Definition str_of_N (n : N) : pystr := digits (N.to_uint n).

End PyStr.
Export PyStr.

(* ================================================================== *)
(** ** Python [re]: the fragment of pattern syntax written out here *)
(* ================================================================== *)

Module Re.

Inductive regex :=
| Void                       (* matches nothing; only arises in derivatives *)
| Eps
| Chr (c : N)
| Dot                        (* any code point but LF *)
| Cat (r s : regex)
| Alt (r s : regex)
| Star (r : regex).

(** Result of [re.compile]: a pattern, [re.error], or a pattern that uses
    syntax outside the fragment (classes, anchors, counted or lazy
    repetition, letter and digit escapes, extension groups), of which
    nothing is said. *)
Inductive compiled :=
| Pattern (r : regex)
| Invalid
| Outside.

Definition c_dot := 46%N.
Definition c_caret := 94%N.
Definition c_dollar := 36%N.
Definition c_star := 42%N.
Definition c_plus := 43%N.
Definition c_quest := 63%N.
Definition c_lbrace := 123%N.
Definition c_rbrace := 125%N.
Definition c_lbrack := 91%N.
Definition c_rbrack := 93%N.
Definition c_bslash := 92%N.
Definition c_bar := 124%N.
Definition c_lparen := 40%N.
Definition c_rparen := 41%N.

(** The characters [re] documents as special. *)
Definition specials : list N :=
  [c_dot; c_caret; c_dollar; c_star; c_plus; c_quest; c_lbrace; c_rbrace;
   c_lbrack; c_rbrack; c_bslash; c_bar; c_lparen; c_rparen].

Definition special (c : N) : bool := existsb (N.eqb c) specials.

Definition ascii_alnum (c : N) : bool :=
  ((48 <=? c) && (c <=? 57) || (65 <=? c) && (c <=? 90) || (97 <=? c) && (c <=? 122))%N.

(** One nesting level of the parser: the alternatives already closed by a
    bar, the items of the current branch (latest first), and whether the
    latest item already carries a repetition. *)
Record level := mklevel {
  branches : option regex;
  items : list regex;
  repeated : bool
}.

Definition fresh : level := mklevel None [] false.

Definition cat_all (rs : list regex) : regex := fold_right Cat Eps rs.

Definition close (l : level) : regex :=
  match branches l with
  | None => cat_all (rev (items l))
  | Some b => Alt b (cat_all (rev (items l)))
  end.

Definition push (r : regex) (l : level) : level :=
  mklevel (branches l) (r :: items l) false.

Definition new_branch (l : level) : level :=
  mklevel (Some (close l)) [] false.

Definition repeat (q : N) (r : regex) : regex :=
  if (q =? c_star)%N then Star r
  else if (q =? c_plus)%N then Cat r (Star r)
  else Alt r Eps.

Fixpoint scan (p : pystr) (cur : level) (stack : list level) : compiled :=
  match p with
  | [] =>
      match stack with
      | [] => Pattern (close cur)
      | _ :: _ => Invalid                      (* missing ), unterminated subpattern *)
      end
  | c :: p' =>
      if (c =? c_lparen)%N then
        match p' with
        | d :: _ => if (d =? c_quest)%N then Outside else scan p' fresh (cur :: stack)
        | [] => scan p' fresh (cur :: stack)
        end
      else if (c =? c_rparen)%N then
        match stack with
        | [] => Invalid                        (* unbalanced parenthesis *)
        | up :: stack' => scan p' (push (close cur) up) stack'
        end
      else if (c =? c_bar)%N then scan p' (new_branch cur) stack
      else if ((c =? c_star) || (c =? c_plus) || (c =? c_quest))%N then
        match items cur with
        | [] => Invalid                        (* nothing to repeat *)
        | r :: rest =>
            if repeated cur then Outside
            else scan p' (mklevel (branches cur) (repeat c r :: rest) true) stack
        end
      else if (c =? c_bslash)%N then
        match p' with
        | [] => Invalid                        (* bad escape (end of pattern) *)
        | e :: p'' => if ascii_alnum e then Outside else scan p'' (push (Chr e) cur) stack
        end
      else if ((c =? c_lbrack) || (c =? c_lbrace) || (c =? c_caret) || (c =? c_dollar))%N
      then Outside
      else scan p' (push (if (c =? c_dot)%N then Dot else Chr c) cur) stack
  end.

(** [re.compile(p)] *)
Definition compile (p : pystr) : compiled := scan p fresh [].

Fixpoint nullable (r : regex) : bool :=
  match r with
  | Void | Chr _ | Dot => false
  | Eps | Star _ => true
  | Cat a b => nullable a && nullable b
  | Alt a b => nullable a || nullable b
  end.

(** Brzozowski derivative. *)
Fixpoint deriv (c : N) (r : regex) : regex :=
  match r with
  | Void | Eps => Void
  | Chr d => if (c =? d)%N then Eps else Void
  | Dot => if (c =? 10)%N then Void else Eps
  | Cat a b => Alt (Cat (deriv c a) b) (if nullable a then deriv c b else Void)
  | Alt a b => Alt (deriv c a) (deriv c b)
  | Star a => Cat (deriv c a) (Star a)
  end.

(** Some prefix of [s] is matched by [r]. *)
Fixpoint match_here (r : regex) (s : pystr) : bool :=
  nullable r ||
  match s with
  | [] => false
  | c :: s' => match_here (deriv c r) s'
  end.

(** [pattern.search(s) is not None]: a match starts somewhere in [s]. *)
Fixpoint search (r : regex) (s : pystr) : bool :=
  match_here r s ||
  match s with
  | [] => false
  | _ :: s' => search r s'
  end.

End Re.

(* ================================================================== *)
(** ** Exceptions and results *)
(* ================================================================== *)

Module Py.

(** The classes under [requests.exceptions.RequestException] that the
    fetch can meet. *)
Inductive request_error := ConnectionError | Timeout | HTTPError | JSONDecodeError.

Inductive exn :=
| RequestException (k : request_error) (msg : pystr)
| AttributeError
| KeyError (key : pystr)
| ReError.                                   (* re.error *)

(** What a piece of the script does: it returns, it raises, or it leaves the
    modelled fragment of [re] (see [Re.Outside]). *)
Inductive outcome (A : Type) :=
| Returned (a : A)
| Raised (e : exn)
| Unmodelled.

Arguments Returned {A} a.
Arguments Raised {A} e.
Arguments Unmodelled {A}.

Definition bind {A B} (m : outcome A) (k : A -> outcome B) : outcome B :=
  match m with
  | Returned a => k a
  | Raised e => Raised e
  | Unmodelled => Unmodelled
  end.

End Py.
Export Py.

Notation "x <- m ;; k" := (bind m (fun x => k))
  (at level 61, m at next level, right associativity).

(* ================================================================== *)
(** ** pandas: frames of object columns *)
(* ================================================================== *)

(** Columns are read as pandas 1.x and 2.x hold them: Python objects, with
    [None] and [nan] kept apart and both turned into text by [astype(str)]. *)

Module Pandas.

(** A value held in a column: [None], [nan], or a [str]. *)
Inductive cell := CNone | CNaN | CStr (s : pystr).

Definition isna (c : cell) : bool :=
  match c with CStr _ => false | _ => true end.

(** A row binds every column of its frame, in column order. *)
Definition row := list (pystr * cell).

Record frame := mkframe { columns : list pystr; rows : list row }.

(** [pd.DataFrame()] *)
Definition empty_frame : frame := mkframe [] [].

(** [df.empty]: some axis has length 0. *)
Definition is_empty (df : frame) : bool :=
  match columns df, rows df with
  | [], _ => true
  | _, [] => true
  | _, _ => false
  end.

Fixpoint lookup {A : Type} (k : pystr) (d : list (pystr * A)) : option A :=
  match d with
  | [] => None
  | (k', v) :: d' => if str_eqb k k' then Some v else lookup k d'
  end.

(** The value a row holds under a column; frame-level operations check the
    column first and raise [KeyError], so the fallback is never read. *)
Definition cell_at (c : pystr) (r : row) : cell :=
  match lookup c r with Some v => v | None => CNaN end.

(** Distinct values in order of first appearance ([Series.unique], and the
    column order pandas derives from a list of dicts). *)
Fixpoint unique (xs : list pystr) : list pystr :=
  match xs with
  | [] => []
  | x :: xs' => x :: filter (fun y => negb (str_eqb x y)) (unique xs')
  end.

(** A decoded JSON object of the payload: keys in document order, each value
    a string or null. *)
Inductive jvalue := JNull | JStr (s : pystr).
Definition record := list (pystr * jvalue).

(** How a dict entry lands in an object column: a present string stays,
    a present [None] stays [None], a missing key becomes [nan]. *)
Definition cell_of (v : option jvalue) : cell :=
  match v with
  | Some (JStr s) => CStr s
  | Some JNull => CNone
  | None => CNaN
  end.

Definition is_nan (c : cell) : bool :=
  match c with CNaN => true | _ => false end.

(** Type inference of a freshly built column: one that holds no string but
    some [nan] becomes a float column, where [None] is [nan] too; any other
    column keeps its values as objects. *)
Definition float_column (c : pystr) (rs : list row) : bool :=
  forallb (fun r => isna (cell_at c r)) rs && existsb (fun r => is_nan (cell_at c r)) rs.

Definition infer_objects (rs : list row) : list row :=
  map (map (fun kv => if float_column (fst kv) rs then (fst kv, CNaN) else kv)) rs.

(** [pd.DataFrame(results)] for a list of dicts: the columns are the keys in
    order of first appearance. *)
Definition DataFrame (results : list record) : frame :=
  let cols := unique (flat_map (map fst) results) in
  mkframe cols
    (infer_objects (map (fun d => map (fun c => (c, cell_of (lookup c d))) cols) results)).

(** [df[c] = v] for a scalar [v] (or a Series holding [v] at every index). *)
Definition setitem (c : pystr) (v : cell) (df : frame) : frame :=
  if mem c (columns df)
  then mkframe (columns df)
         (map (map (fun kv => if str_eqb (fst kv) c then (fst kv, v) else kv)) (rows df))
  else mkframe (columns df ++ [c]) (map (fun r => r ++ [(c, v)]) (rows df)).

Definition update (c : pystr) (f : cell -> cell) (r : row) : row :=
  map (fun kv => if str_eqb (fst kv) c then (fst kv, f (snd kv)) else kv) r.

(** [df[c] = f(df[c])] for an elementwise [f]; reading a missing column
    raises [KeyError]. *)
Definition transform (c : pystr) (f : cell -> cell) (df : frame) : outcome frame :=
  if mem c (columns df)
  then Returned (mkframe (columns df) (map (update c f) (rows df)))
  else Raised (KeyError c).

(** [df[c]] as the list of its values. *)
Definition series (c : pystr) (df : frame) : outcome (list cell) :=
  if mem c (columns df)
  then Returned (map (cell_at c) (rows df))
  else Raised (KeyError c).

(** [df[mask]] with the mask given per row. *)
Definition select (mask : row -> bool) (df : frame) : frame :=
  mkframe (columns df) (filter mask (rows df)).

(** [Series.fillna(v)] *)
Definition fillna (v : pystr) (c : cell) : cell :=
  if isna c then CStr v else c.

(** [str(x)] of a cell's value. *)
Definition str_of (c : cell) : pystr :=
  match c with
  | CNone => py "None"
  | CNaN => py "nan"
  | CStr s => s
  end.

(** [Series.astype(str)] *)
Definition astype_str (c : cell) : cell := CStr (str_of c).

(** [Series.str.<method>()]: applied to strings, [nan] for anything else. *)
Definition str_method (f : pystr -> pystr) (c : cell) : cell :=
  match c with
  | CStr s => CStr (f s)
  | _ => CNaN
  end.

(** [Series.isin(values)] for a list of strings. *)
Definition isin (values : list pystr) (c : cell) : bool :=
  match c with
  | CStr s => mem s values
  | _ => false
  end.

(** [Series.dropna()] followed by [tolist()]. *)
Fixpoint dropna (s : list cell) : list pystr :=
  match s with
  | [] => []
  | CStr x :: s' => x :: dropna s'
  | _ :: s' => dropna s'
  end.

(** Stable sort by insertion. *)
Section Sort.
Variable A : Type.
Variable leb : A -> A -> bool.

Fixpoint insert (x : A) (l : list A) : list A :=
  match l with
  | [] => [x]
  | y :: l' => if leb x y then x :: l else y :: insert x l'
  end.

Fixpoint sort (l : list A) : list A :=
  match l with
  | [] => []
  | x :: l' => insert x (sort l')
  end.
End Sort.

Definition leb_of {A : Type} (cmp : A -> A -> comparison) (x y : A) : bool :=
  match cmp x y with Gt => false | _ => true end.

(** Order of one sort key with [na_position="last"]. *)
Definition cell_compare (a b : cell) : comparison :=
  match a, b with
  | CStr x, CStr y => str_compare x y
  | CStr _, _ => Lt
  | _, CStr _ => Gt
  | _, _ => Eq
  end.

Definition sort_key (by_ : list pystr) (r : row) : list cell :=
  map (fun c => cell_at c r) by_.

Definition row_compare (by_ : list pystr) (r1 r2 : row) : comparison :=
  lex cell_compare (sort_key by_ r1) (sort_key by_ r2).

Definition row_leb (by_ : list pystr) : row -> row -> bool := leb_of (row_compare by_).

(** [df.sort_values(by, na_position="last").reset_index(drop=True)]:
    lexicographic on the key columns, equal keys keep their order. *)
Definition sort_values (by_ : list pystr) (df : frame) : outcome frame :=
  match filter (fun c => negb (mem c (columns df))) by_ with
  | [] => Returned (mkframe (columns df) (sort (row_leb by_) (rows df)))
  | c :: _ => Raised (KeyError c)
  end.

(** [sorted(xs)] on strings. *)
Definition sorted (xs : list pystr) : list pystr := sort (leb_of str_compare) xs.

Fixpoint count (x : pystr) (xs : list pystr) : nat :=
  match xs with
  | [] => 0
  | y :: xs' => (if str_eqb x y then 1 else 0) + count x xs'
  end.

Definition count_geb (a b : pystr * nat) : bool := Nat.leb (snd b) (snd a).

(** [Series.sort_values(ascending=False)] on a Series of counts.  The order
    of equal counts is left open by the default sort kind; the model keeps
    them as they come. *)
Definition sort_counts_desc (t : list (pystr * nat)) : list (pystr * nat) :=
  sort count_geb t.

(** [Series.value_counts()]: the non-null values with how often each occurs,
    most frequent first. *)
Definition value_counts (s : list cell) : list (pystr * nat) :=
  let xs := dropna s in
  sort_counts_desc (map (fun k => (k, count k xs)) (unique xs)).

(** The text a cell takes in the CSV: nulls are written as the empty field. *)
Definition csv_field (c : cell) : pystr :=
  match c with
  | CStr s => s
  | _ => []
  end.

(** [df.to_csv(index=False)] as records of fields: the header, then one
    record per row.  Quoting and the UTF-8 encoding of the text are not
    unfolded. *)
Definition to_csv (df : frame) : list (list pystr) :=
  columns df :: map (fun r => map (fun c => csv_field (cell_at c r)) (columns df)) (rows df).

End Pandas.
Export Pandas.

(* ================================================================== *)
(** ** [requests]: what the HTTP call can come back with *)
(* ================================================================== *)

Module Requests.

(** The decoded document: an object, with its ["results"] entry when it has
    one (an array of objects), or any other JSON value (array, string,
    number, boolean, null). *)
Inductive json :=
| JNotObject
| JObject (results : option (list record)).

(** The body as [Response.json()] sees it. *)
Inductive body :=
| Undecodable (msg : pystr)
| Decoded (js : json).

(** The world's answer to [requests.get(url, timeout=15)]. *)
Inductive reply :=
| Unreachable (msg : pystr)                  (* ConnectionError *)
| TimedOut (msg : pystr)                     (* Timeout, after 15 s *)
| Response (status : N) (reason : pystr) (b : body).

Record response := mkresponse { status_code : N; reason_phrase : pystr; payload : body }.

Definition get (w : reply) : outcome response :=
  match w with
  | Unreachable msg => Raised (RequestException ConnectionError msg)
  | TimedOut msg => Raised (RequestException Timeout msg)
  | Response st rs b => Returned (mkresponse st rs b)
  end.

(** [Response.raise_for_status()]: raises on 400..599 only. *)
Definition raise_for_status (url : pystr) (r : response) : outcome unit :=
  let st := status_code r in
  if ((400 <=? st) && (st <? 500))%N then
    Raised (RequestException HTTPError
      (str_of_N st ++ py " Client Error: " ++ reason_phrase r ++ py " for url: " ++ url))
  else if ((500 <=? st) && (st <? 600))%N then
    Raised (RequestException HTTPError
      (str_of_N st ++ py " Server Error: " ++ reason_phrase r ++ py " for url: " ++ url))
  else Returned tt.

(** [Response.json()]: [requests.exceptions.JSONDecodeError] when the body
    is not JSON (a [RequestException] since requests 2.27). *)
Definition json_of (r : response) : outcome json :=
  match payload r with
  | Undecodable msg => Raised (RequestException JSONDecodeError msg)
  | Decoded js => Returned js
  end.

End Requests.

(* ================================================================== *)
(** ** app.py *)
(* ================================================================== *)

Module App.

Definition c_state := py "state".
Definition c_city := py "city".
Definition c_callsign := py "callsign".
Definition c_radio_id := py "radio_id".
Definition c_fname := py "fname".
Definition c_lname := py "lname".
Definition c_last_seen := py "last_seen".

Definition API_URL : pystr := py "https://radioid.net/api/dmr/user/?country=Chile".

(** The literals "Sin Región" and "Sin Ciudad". *)
Definition sin_region : pystr := py "Sin Regi" ++ [243%N] ++ py "n".
Definition sin_ciudad : pystr := py "Sin Ciudad".

(** Line 22: the columns [fetch_data] makes sure of. *)
Definition expected_columns : list pystr :=
  [c_state; c_city; c_callsign; c_radio_id; c_fname; c_lname; c_last_seen].

(** Line 110 *)
Definition columns_to_show : list pystr :=
  [c_callsign; c_radio_id; c_fname; c_lname; c_city; c_state; c_last_seen].

(** Line 19: [js.get("results", [])]; only a dict has [get]. *)
Definition get_results (js : Requests.json) : outcome (list record) :=
  match js with
  | Requests.JNotObject => Raised AttributeError
  | Requests.JObject None => Returned []
  | Requests.JObject (Some rs) => Returned rs
  end.

(** Lines 23-24, one turn of the loop. *)
Definition ensure_column (df : frame) (col : pystr) : frame :=
  if mem col (columns df) then df else setitem col CNone df.

Section Case.
Variable tbl : case_table.

(** Lines 16-31: the body of the [try]. *)
Definition try_body (url : pystr) (w : Requests.reply) : outcome frame :=
  r <- Requests.get w ;;
  _ <- Requests.raise_for_status url r ;;
  js <- Requests.json_of r ;;
  results <- get_results js ;;
  let df := DataFrame results in
  let df := fold_left ensure_column expected_columns df in
  df <- transform c_state
          (fun c => str_method strip (astype_str (fillna sin_region c))) df ;;
  df <- transform c_city
          (fun c => str_method strip (astype_str (fillna sin_ciudad c))) df ;;
  df <- transform c_callsign
          (fun c => str_method (upper tbl) (astype_str c)) df ;;
  sort_values [c_state; c_city; c_callsign] df.

(** What a call of [fetch_data] leaves behind: the frame it returns and
    the messages it passed to [st.error]. *)
Record fetched := mkfetched { table : frame; reported : list pystr }.

(** Lines 14-34.  The handler takes [RequestException] and its
    subclasses; anything else goes on to the caller. *)
Definition fetch_data (url : pystr) (w : Requests.reply) : outcome fetched :=
  match try_body url w with
  | Returned df => Returned (mkfetched df [])
  | Raised (RequestException _ e) =>
      Returned (mkfetched empty_frame [py "Error consultando la API: " ++ e])
  | Raised e => Raised e
  | Unmodelled => Unmodelled
  end.

(** How the page stands after lines 58-68: stopped with its messages, or
    going on with a frame. *)
Inductive page :=
| Stopped (messages : list pystr)
| Loaded (df : frame) (messages : list pystr).

(** Lines 58-68: the first fetch, the [df.empty] gate, and the second fetch
    when the refresh button was pressed ([refresh] is the reply it gets);
    the frame of the second fetch is not put through the gate. *)
Definition load (url : pystr) (w : Requests.reply) (refresh : option Requests.reply)
  : outcome page :=
  f <- fetch_data url w ;;
  if is_empty (table f)
  then Returned (Stopped (reported f ++
         [py "No se pudieron cargar datos. Intenta nuevamente con 'Actualizar'."]))
  else match refresh with
       | None => Returned (Loaded (table f) (reported f))
       | Some w' =>
           f' <- fetch_data API_URL w' ;;
           Returned (Loaded (table f') (reported f ++ reported f'))
       end.

(** Line 84 *)
Definition regions (df : frame) : outcome (list pystr) :=
  s <- series c_state df ;;
  Returned (sorted (unique (dropna s))).

(** Line 88 *)
Definition region_stage (selected_regions : list pystr) (df : frame) : outcome frame :=
  _ <- series c_state df ;;
  Returned (select (fun r => isin selected_regions (cell_at c_state r)) df).

(** Line 91 *)
Definition cities (df_filtered : frame) : outcome (list pystr) :=
  s <- series c_city df_filtered ;;
  Returned (sorted (unique (dropna s))).

(** Lines 94-95 *)
Definition city_stage (selected_cities : list pystr) (df_filtered : frame) : outcome frame :=
  match selected_cities with
  | [] => Returned df_filtered
  | _ :: _ =>
      _ <- series c_city df_filtered ;;
      Returned (select (fun r => isin selected_cities (cell_at c_city r)) df_filtered)
  end.

(** [Series.str.contains(q, na=False)] with its defaults [case=True] and
    [regex=True]: [q] is compiled as a pattern, once, whatever the rows. *)
Definition str_contains (q : pystr) : outcome (cell -> bool) :=
  match Re.compile q with
  | Re.Pattern re =>
      Returned (fun c => match c with CStr s => Re.search re s | _ => false end)
  | Re.Invalid => Raised ReError
  | Re.Outside => Unmodelled
  end.

(** One disjunct of lines 101-105: the column, as text, put through [f],
    then searched. *)
Definition column_mask (c : pystr) (f : cell -> cell) (q : pystr) (df : frame)
  : outcome (row -> bool) :=
  _ <- series c df ;;
  hit <- str_contains q ;;
  Returned (fun r => hit (f (astype_str (cell_at c r)))).

Definition as_is (c : cell) : cell := c.
Definition uppercased (c : cell) : cell := str_method (upper tbl) c.

(** Lines 100-106 *)
Definition mask (q : pystr) (df : frame) : outcome (row -> bool) :=
  m1 <- column_mask c_callsign as_is q df ;;
  m2 <- column_mask c_fname uppercased q df ;;
  m3 <- column_mask c_lname uppercased q df ;;
  m4 <- column_mask c_city uppercased q df ;;
  m5 <- column_mask c_state uppercased q df ;;
  Returned (fun r => m1 r || m2 r || m3 r || m4 r || m5 r).

(** Lines 98-107; [text] is what the search box holds. *)
Definition text_stage (text : pystr) (df_filtered : frame) : outcome frame :=
  let q := upper tbl (strip text) in
  match q with
  | [] => Returned df_filtered
  | _ :: _ =>
      m <- mask q df_filtered ;;
      Returned (select m df_filtered)
  end.

(** Lines 84-107: the three stages in the script's order. *)
Definition df_filtered (df : frame) (selected_regions selected_cities : list pystr)
    (text : pystr) : outcome frame :=
  d <- region_stage selected_regions df ;;
  d <- city_stage selected_cities d ;;
  text_stage text d.

(** Lines 111-115 *)
Definition missing_cols (d : frame) : list pystr :=
  filter (fun c => negb (mem c (columns d))) columns_to_show.

Definition add_missing (d : frame) : frame :=
  fold_left (fun d c => setitem c CNone d) (missing_cols d) d.

(** Lines 36-37, at the level of CSV records. *)
Definition to_csv_bytes (df : frame) : list (list pystr) := to_csv df.

(** Lines 120-125: what the download button serves. *)
Definition download (d : frame) : list (list pystr) := to_csv_bytes (add_missing d).

(** Lines 131-135: what the table widget shows, [df_filtered[columns_to_show]]. *)
Definition shown (d : frame) : list (list cell) :=
  map (fun r => map (fun c => cell_at c r) columns_to_show) (rows (add_missing d)).

(** Line 147 *)
Definition counts_region (d : frame) : outcome (list (pystr * nat)) :=
  s <- series c_state d ;;
  Returned (sort_counts_desc (value_counts s)).

End Case.

End App.
Export App.

(* ================================================================== *)
(** * Properties *)
(* ================================================================== *)

(** ** Strings and membership *)

Lemma str_eqb_eq (a b : pystr) : str_eqb a b = true <-> a = b.
Proof.
  revert b; induction a as [|x a IH]; intros [|y b]; simpl; try (split; congruence).
  rewrite andb_true_iff, N.eqb_eq, IH. split.
  - intros [-> ->]; reflexivity.
  - intros E; injection E; auto.
Qed.

Lemma str_eqb_refl (a : pystr) : str_eqb a a = true.
Proof. apply str_eqb_eq; reflexivity. Qed.

Lemma str_eqb_neq (a b : pystr) : str_eqb a b = false <-> a <> b.
Proof.
  rewrite <- str_eqb_eq. destruct (str_eqb a b); split; congruence.
Qed.

Lemma str_eqb_sym (a b : pystr) : str_eqb a b = str_eqb b a.
Proof.
  destruct (str_eqb a b) eqn:E.
  - apply str_eqb_eq in E; subst; symmetry; apply str_eqb_refl.
  - symmetry; apply str_eqb_neq; apply str_eqb_neq in E; congruence.
Qed.

Lemma mem_In (x : pystr) (xs : list pystr) : mem x xs = true <-> In x xs.
Proof.
  unfold mem. rewrite existsb_exists. split.
  - intros [y [Hy E]]. apply str_eqb_eq in E; subst; assumption.
  - intros H; exists x; split; [assumption | apply str_eqb_refl].
Qed.

Lemma mem_app (x : pystr) (xs ys : list pystr) : mem x (xs ++ ys) = mem x xs || mem x ys.
Proof. unfold mem; apply existsb_app. Qed.

Lemma upper_nil (tbl : case_table) : upper tbl [] = [].
Proof. reflexivity. Qed.

Lemma latin1_ascii_case : ascii_case latin1_table.
Proof.
  intros c Hc. unfold latin1_table.
  apply N.ltb_lt in Hc. rewrite Hc. reflexivity.
Qed.

Lemma upper_ascii (tbl : case_table) (s : pystr) :
  ascii_case tbl -> Forall (fun c => (c < 128)%N) s -> upper tbl s = map ascii_upper s.
Proof.
  intros Ht Hs. unfold upper.
  induction Hs as [|c s Hc _ IH]; simpl; [reflexivity|].
  rewrite (Ht c Hc), IH. reflexivity.
Qed.

Lemma upper_None (tbl : case_table) : ascii_case tbl -> upper tbl (py "None") = py "NONE".
Proof.
  intros Ht. rewrite upper_ascii; [reflexivity | assumption |].
  repeat constructor.
Qed.

Lemma upper_nan (tbl : case_table) : ascii_case tbl -> upper tbl (py "nan") = py "NAN".
Proof.
  intros Ht. rewrite upper_ascii; [reflexivity | assumption |].
  repeat constructor.
Qed.

(** ** Three-way comparisons that order *)

Record ordering (A : Type) (cmp : A -> A -> comparison) : Prop := {
  cmp_sym : forall x y, cmp y x = CompOpp (cmp x y);
  cmp_eq_l : forall x y z, cmp x y = Eq -> cmp x z = cmp y z;
  cmp_lt_trans : forall x y z, cmp x y = Lt -> cmp y z = Lt -> cmp x z = Lt
}.

Lemma ordering_N : ordering N.compare.
Proof.
  split.
  - intros x y. apply N.compare_antisym.
  - intros x y z E. apply N.compare_eq in E. subst. reflexivity.
  - intros x y z. rewrite !N.compare_lt_iff. lia.
Qed.

Section LexOrdering.
Variable A : Type.
Variable cmp : A -> A -> comparison.
Hypothesis O : ordering cmp.

Lemma lex_sym (a b : list A) : lex cmp b a = CompOpp (lex cmp a b).
Proof.
  revert b; induction a as [|x a IH]; intros [|y b]; simpl; try reflexivity.
  rewrite (cmp_sym O x y). destruct (cmp x y); simpl; auto.
Qed.

Lemma lex_eq_l (a b c : list A) : lex cmp a b = Eq -> lex cmp a c = lex cmp b c.
Proof.
  revert b c; induction a as [|x a IH]; intros [|y b] c; simpl; try discriminate.
  - reflexivity.
  - destruct (cmp x y) eqn:E; try discriminate. intros H.
    destruct c as [|z c]; [reflexivity|]. simpl.
    rewrite (cmp_eq_l O x y z E). destruct (cmp y z); auto.
Qed.

Lemma lex_lt_trans (a b c : list A) :
  lex cmp a b = Lt -> lex cmp b c = Lt -> lex cmp a c = Lt.
Proof.
  revert b c; induction a as [|x a IH]; intros [|y b] [|z c]; simpl;
    try discriminate; try reflexivity.
  destruct (cmp x y) eqn:Exy; try discriminate.
  - rewrite (cmp_eq_l O x y z Exy). destruct (cmp y z); try discriminate; eauto.
  - intros _. destruct (cmp y z) eqn:Eyz; try discriminate.
    + assert (E : cmp x z = Lt).
      { assert (Ezy : cmp z y = Eq) by (rewrite (cmp_sym O y z), Eyz; reflexivity).
        assert (H : cmp z x = cmp y x) by (apply (cmp_eq_l O); assumption).
        rewrite (cmp_sym O z x). rewrite H. rewrite (cmp_sym O x y), Exy. reflexivity. }
      rewrite E; reflexivity.
    + rewrite (cmp_lt_trans O x y z Exy Eyz). reflexivity.
Qed.

Lemma ordering_lex : ordering (lex cmp).
Proof. split; [intros; apply lex_sym | apply lex_eq_l | apply lex_lt_trans]. Qed.

Lemma leb_of_total (x y : A) : leb_of cmp x y = false -> leb_of cmp y x = true.
Proof.
  unfold leb_of. rewrite (cmp_sym O x y). destruct (cmp x y); simpl; congruence.
Qed.

Lemma leb_of_trans (x y z : A) :
  leb_of cmp x y = true -> leb_of cmp y z = true -> leb_of cmp x z = true.
Proof.
  unfold leb_of. destruct (cmp x y) eqn:Exy; try discriminate; intros _.
  - rewrite (cmp_eq_l O x y z Exy). auto.
  - destruct (cmp y z) eqn:Eyz; try discriminate; intros _.
    + assert (Ezy : cmp z y = Eq) by (rewrite (cmp_sym O y z), Eyz; reflexivity).
      pose proof (cmp_eq_l O z y x Ezy) as H.
      rewrite (cmp_sym O x y), Exy in H. simpl in H.
      rewrite (cmp_sym O z x), H. reflexivity.
    + rewrite (cmp_lt_trans O x y z Exy Eyz). reflexivity.
Qed.
End LexOrdering.

Lemma ordering_str : ordering str_compare.
Proof. apply ordering_lex, ordering_N. Qed.

Lemma ordering_cell : ordering cell_compare.
Proof.
  pose proof ordering_str as O. split.
  - intros [| |x] [| |y]; simpl; try reflexivity. apply (cmp_sym O).
  - intros [| |x] [| |y] [| |z]; simpl; try discriminate; try reflexivity.
    apply (cmp_eq_l O).
  - intros [| |x] [| |y] [| |z]; simpl; try discriminate; try reflexivity.
    apply (cmp_lt_trans O).
Qed.

Lemma ordering_row (by_ : list pystr) : ordering (row_compare by_).
Proof.
  pose proof (ordering_lex ordering_cell) as O. unfold row_compare. split.
  - intros; apply (cmp_sym O).
  - intros x y z; apply (cmp_eq_l O).
  - intros x y z; apply (cmp_lt_trans O).
Qed.

(** ** Stable insertion sort *)

(** [l1] is [l2] with some elements left out, the others in place. *)
Inductive subseq (A : Type) : list A -> list A -> Prop :=
| subseq_nil : subseq [] []
| subseq_skip x l1 l2 : subseq l1 l2 -> subseq l1 (x :: l2)
| subseq_keep x l1 l2 : subseq l1 l2 -> subseq (x :: l1) (x :: l2).

Lemma subseq_refl (A : Type) (l : list A) : subseq l l.
Proof. induction l; constructor; assumption. Qed.

Lemma filter_subseq (A : Type) (f : A -> bool) (l : list A) : subseq (filter f l) l.
Proof.
  induction l as [|x l IH]; simpl; [constructor|].
  destruct (f x); constructor; assumption.
Qed.

Lemma filter_all (A : Type) (f : A -> bool) (l : list A) :
  (forall x, In x l -> f x = true) -> filter f l = l.
Proof.
  induction l as [|x l IH]; simpl; intros H; [reflexivity|].
  rewrite (H x (or_introl eq_refl)). f_equal. apply IH. intros y Hy. apply H; right; assumption.
Qed.

Lemma filter_filter (A : Type) (f g : A -> bool) (l : list A) :
  filter g (filter f l) = filter (fun x => f x && g x) l.
Proof.
  induction l as [|x l IH]; simpl; [reflexivity|].
  destruct (f x); simpl; [destruct (g x)|]; rewrite IH; reflexivity.
Qed.

Section SortFacts.
Variable A : Type.
Variable leb : A -> A -> bool.

Definition le_of (x y : A) : Prop := leb x y = true.

Lemma insert_perm (x : A) (l : list A) : Permutation (x :: l) (insert leb x l).
Proof.
  induction l as [|y l IH]; simpl; [reflexivity|].
  destruct (leb x y); [reflexivity|].
  rewrite perm_swap. constructor. assumption.
Qed.

Lemma sort_perm (l : list A) : Permutation l (sort leb l).
Proof.
  induction l as [|x l IH]; simpl; [constructor|].
  rewrite <- insert_perm. constructor. assumption.
Qed.

Hypothesis total : forall x y, leb x y = false -> leb y x = true.

Lemma insert_hd (x y : A) (l : list A) :
  le_of y x -> HdRel le_of y l -> HdRel le_of y (insert leb x l).
Proof.
  intros Hyx Hl. destruct l as [|z l]; simpl; [constructor; assumption|].
  destruct (leb x z); constructor; [assumption|].
  inversion Hl; assumption.
Qed.

Lemma insert_sorted (x : A) (l : list A) : Sorted le_of l -> Sorted le_of (insert leb x l).
Proof.
  induction 1 as [|y l Hs IH Hh]; simpl.
  - repeat constructor.
  - destruct (leb x y) eqn:E.
    + constructor; [constructor; assumption | constructor; exact E].
    + constructor; [assumption|]. apply insert_hd; [apply total; exact E | assumption].
Qed.

Lemma sort_sorted (l : list A) : Sorted le_of (sort leb l).
Proof.
  induction l as [|x l IH]; simpl; [constructor | apply insert_sorted; assumption].
Qed.

Lemma sort_of_sorted (l : list A) : Sorted le_of l -> sort leb l = l.
Proof.
  induction 1 as [|x l Hs IH Hh]; simpl; [reflexivity|].
  rewrite IH. destruct Hh as [|y l Hxy]; simpl; [reflexivity|].
  unfold le_of in Hxy. rewrite Hxy. reflexivity.
Qed.

Hypothesis trans : forall x y z, leb x y = true -> leb y z = true -> leb x z = true.

Lemma sorted_strongly (l : list A) : Sorted le_of l -> StronglySorted le_of l.
Proof.
  apply Sorted_StronglySorted. intros x y z; unfold le_of; apply trans.
Qed.

Lemma filter_strongly (f : A -> bool) (l : list A) :
  StronglySorted le_of l -> StronglySorted le_of (filter f l).
Proof.
  induction 1 as [|x l Hs IH Hall]; simpl; [constructor|].
  destruct (f x); [|assumption]. constructor; [assumption|].
  rewrite Forall_forall in *. intros y Hy. apply filter_In in Hy. apply Hall, Hy.
Qed.

Lemma filter_sorted (f : A -> bool) (l : list A) :
  Sorted le_of l -> Sorted le_of (filter f l).
Proof.
  intros H. apply StronglySorted_Sorted, filter_strongly, sorted_strongly, H.
Qed.
End SortFacts.

(** ** [unique] and [count] *)

Lemma unique_In (x : pystr) (l : list pystr) : In x (unique l) <-> In x l.
Proof.
  induction l as [|y l IH]; simpl; [tauto|].
  rewrite filter_In, IH, negb_true_iff, str_eqb_neq.
  destruct (str_eqb y x) eqn:E.
  - apply str_eqb_eq in E. subst. tauto.
  - apply str_eqb_neq in E. tauto.
Qed.

Lemma unique_NoDup (l : list pystr) : NoDup (unique l).
Proof.
  induction l as [|y l IH]; simpl; constructor.
  - rewrite filter_In, negb_true_iff, str_eqb_neq. tauto.
  - apply NoDup_filter, IH.
Qed.

Lemma count_pos (x : pystr) (l : list pystr) : 0 < count x l <-> In x l.
Proof.
  induction l as [|y l IH]; simpl; [lia|].
  destruct (str_eqb x y) eqn:E.
  - apply str_eqb_eq in E. subst. split; [auto | lia].
  - apply str_eqb_neq in E. rewrite <- IH. split; [intros H; right; lia|].
    intros [H|H]; [congruence | lia].
Qed.

Lemma dropna_In (x : pystr) (s : list cell) : In x (dropna s) <-> In (CStr x) s.
Proof.
  induction s as [|c s IH]; simpl; [tauto|].
  destruct c; simpl; rewrite IH; split; intros H; try tauto;
    try (destruct H as [H|H]; [discriminate | assumption]).
  - destruct H as [H|H]; [left; congruence | right; assumption].
  - destruct H as [H|H]; [left; congruence | right; assumption].
Qed.

(** ** Rows and frames *)

Lemma lookup_None (A : Type) (c : pystr) (d : list (pystr * A)) :
  lookup c d = None <-> ~ In c (map fst d).
Proof.
  induction d as [|[k v] d IH]; simpl; [tauto|].
  destruct (str_eqb c k) eqn:E.
  - apply str_eqb_eq in E. subst. split; [discriminate | tauto].
  - apply str_eqb_neq in E. rewrite IH. split; [intros H [H'|H']; congruence | tauto].
Qed.

Lemma lookup_app (A : Type) (c : pystr) (d e : list (pystr * A)) :
  lookup c (d ++ e) = match lookup c d with Some v => Some v | None => lookup c e end.
Proof.
  induction d as [|[k v] d IH]; simpl; [reflexivity|].
  destruct (str_eqb c k); [reflexivity | exact IH].
Qed.

Lemma lookup_map_key (A B : Type) (f : pystr -> A -> B) (c : pystr) (d : list (pystr * A)) :
  lookup c (map (fun kv => (fst kv, f (fst kv) (snd kv))) d)
  = match lookup c d with Some v => Some (f c v) | None => None end.
Proof.
  induction d as [|[k v] d IH]; simpl; [reflexivity|].
  destruct (str_eqb c k) eqn:E; [|exact IH].
  apply str_eqb_eq in E. subst. reflexivity.
Qed.

Lemma lookup_const (vs : list pystr) (v : cell) (c : pystr) :
  lookup c (map (fun k => (k, v)) vs) = if mem c vs then Some v else None.
Proof.
  induction vs as [|k vs IH]; simpl; [reflexivity|].
  destruct (str_eqb c k); [reflexivity | exact IH].
Qed.

Lemma lookup_update (c c' : pystr) (f : cell -> cell) (r : row) :
  lookup c (update c' f r)
  = match lookup c r with
    | Some v => Some (if str_eqb c c' then f v else v)
    | None => None
    end.
Proof.
  induction r as [|[k v] r IH]; simpl; [reflexivity|].
  destruct (str_eqb k c') eqn:Ek; simpl; destruct (str_eqb c k) eqn:Ec; try exact IH.
  - apply str_eqb_eq in Ec. subst. rewrite Ek. reflexivity.
  - apply str_eqb_eq in Ec. subst. rewrite Ek. reflexivity.
Qed.

Lemma cell_at_update (c c' : pystr) (f : cell -> cell) (r : row) :
  In c (map fst r) ->
  cell_at c (update c' f r) = if str_eqb c c' then f (cell_at c r) else cell_at c r.
Proof.
  intros Hin. unfold cell_at. rewrite lookup_update.
  destruct (lookup c r) eqn:E.
  - destruct (str_eqb c c'); reflexivity.
  - apply lookup_None in E. contradiction.
Qed.

Lemma update_keys (c : pystr) (f : cell -> cell) (r : row) :
  map fst (update c f r) = map fst r.
Proof.
  unfold update. rewrite map_map. apply map_ext. intros [k v]; simpl.
  destruct (str_eqb k c); reflexivity.
Qed.

(** Every row binds exactly the columns of the frame. *)
Definition aligned (df : frame) : Prop :=
  Forall (fun r => map fst r = columns df) (rows df).

Lemma infer_objects_keys (rs : list row) (r : row) :
  In r (infer_objects rs) -> exists r0, In r0 rs /\ map fst r = map fst r0.
Proof.
  unfold infer_objects. rewrite in_map_iff. intros [r0 [E H]]. exists r0. split; [assumption|].
  subst. rewrite map_map. apply map_ext. intros [k v]; simpl.
  destruct (float_column k rs); reflexivity.
Qed.

Lemma DataFrame_aligned (results : list record) : aligned (DataFrame results).
Proof.
  unfold aligned, DataFrame; simpl. apply Forall_forall. intros r Hr.
  apply infer_objects_keys in Hr. destruct Hr as [r0 [H0 E]]. rewrite E.
  apply in_map_iff in H0. destruct H0 as [d [Ed _]]. subst.
  rewrite map_map. simpl. apply map_id.
Qed.

(** The columns the loop of lines 22-24 appends to a frame with columns [cols]. *)
Fixpoint added (l cols : list pystr) : list pystr :=
  match l with
  | [] => []
  | c :: l' => if mem c cols then added l' cols else c :: added l' (cols ++ [c])
  end.

Lemma ensure_fold (l : list pystr) (df : frame) :
  fold_left ensure_column l df
  = mkframe (columns df ++ added l (columns df))
      (map (fun r => r ++ map (fun c => (c, CNone)) (added l (columns df))) (rows df)).
Proof.
  revert df; induction l as [|c l IH]; intros [cols rs]; simpl.
  - rewrite app_nil_r. f_equal. rewrite <- (map_id rs) at 1. apply map_ext.
    intros r. rewrite app_nil_r. reflexivity.
  - unfold ensure_column at 2. simpl. destruct (mem c cols) eqn:E.
    + rewrite IH. reflexivity.
    + unfold setitem. simpl. rewrite E. rewrite IH. simpl.
      rewrite <- app_assoc. simpl. f_equal. rewrite map_map. apply map_ext.
      intros r. rewrite <- app_assoc. reflexivity.
Qed.

Lemma added_mem (l cols : list pystr) (c : pystr) :
  In c l -> mem c (cols ++ added l cols) = true.
Proof.
  revert cols; induction l as [|k l IH]; intros cols; simpl; [tauto|].
  intros [->|H].
  - destruct (mem c cols) eqn:E.
    + rewrite mem_app, E. reflexivity.
    + rewrite mem_app. simpl. rewrite str_eqb_refl. simpl. apply orb_true_r.
  - destruct (mem k cols) eqn:E.
    + apply IH; assumption.
    + specialize (IH (cols ++ [k]) H). rewrite <- app_assoc in IH. exact IH.
Qed.

Lemma added_fresh (l cols : list pystr) (c : pystr) :
  In c (added l cols) -> mem c cols = false.
Proof.
  revert cols; induction l as [|k l IH]; intros cols; simpl; [tauto|].
  destruct (mem k cols) eqn:E.
  - apply IH.
  - intros [->|H]; [assumption|].
    apply IH in H. rewrite mem_app in H. apply orb_false_iff in H. tauto.
Qed.

Lemma added_In (l cols : list pystr) (c : pystr) :
  In c l -> mem c cols = false -> In c (added l cols).
Proof.
  revert cols; induction l as [|k l IH]; intros cols; simpl; [tauto|].
  intros [->|H] Hc.
  - rewrite Hc. left; reflexivity.
  - destruct (mem k cols) eqn:E; [apply IH; assumption|].
    destruct (str_eqb c k) eqn:Eck.
    + apply str_eqb_eq in Eck. left; congruence.
    + right. apply IH; [assumption|]. rewrite mem_app, Hc. simpl. rewrite Eck. reflexivity.
Qed.


(** ** What a successful fetch returns *)

(** The frame after lines 20-24. *)
Definition prepared (results : list record) : frame :=
  fold_left ensure_column expected_columns (DataFrame results).

(** Lines 26-28 on one row. *)
Definition normalize_row (tbl : case_table) (r : row) : row :=
  update c_callsign (fun c => str_method (upper tbl) (astype_str c))
    (update c_city (fun c => str_method strip (astype_str (fillna sin_ciudad c)))
       (update c_state (fun c => str_method strip (astype_str (fillna sin_region c))) r)).

Definition sort_by : list pystr := [c_state; c_city; c_callsign].

Definition normalized (tbl : case_table) (results : list record) : frame :=
  mkframe (columns (prepared results))
    (sort (row_leb sort_by) (map (normalize_row tbl) (rows (prepared results)))).

(** The statuses [raise_for_status] lets through. *)
Definition passes (st : N) : bool := negb ((400 <=? st) && (st <? 600))%N.

Definition results_of (res : option (list record)) : list record :=
  match res with Some rs => rs | None => [] end.

Lemma prepared_columns (results : list record) (c : pystr) :
  In c expected_columns -> mem c (columns (prepared results)) = true.
Proof.
  intros H. unfold prepared. rewrite ensure_fold. cbn [columns]. apply added_mem, H.
Qed.

Lemma prepared_aligned (results : list record) : aligned (prepared results).
Proof.
  unfold prepared. rewrite ensure_fold. unfold aligned; cbn [columns rows].
  apply Forall_forall. intros r Hr. apply in_map_iff in Hr. destruct Hr as [r0 [<- H0]].
  pose proof (DataFrame_aligned results) as Ha. unfold aligned in Ha.
  rewrite Forall_forall in Ha. rewrite map_app, (Ha r0 H0), map_map. cbn [fst].
  rewrite map_id. reflexivity.
Qed.

Lemma raise_for_status_passes (url : pystr) (r : Requests.response) :
  passes (Requests.status_code r) = true -> Requests.raise_for_status url r = Returned tt.
Proof.
  unfold passes, Requests.raise_for_status. intros H. apply negb_true_iff in H.
  destruct ((400 <=? Requests.status_code r) && (Requests.status_code r <? 500))%N eqn:E4.
  - exfalso. apply andb_true_iff in E4. destruct E4 as [A B].
    apply andb_false_iff in H. apply N.leb_le in A. apply N.ltb_lt in B.
    destruct H as [H|H]; [apply N.leb_gt in H | apply N.ltb_ge in H]; lia.
  - destruct ((500 <=? Requests.status_code r) && (Requests.status_code r <? 600))%N eqn:E5;
      [|reflexivity].
    exfalso. apply andb_true_iff in E5. destruct E5 as [A B].
    apply andb_false_iff in H. apply N.leb_le in A. apply N.ltb_lt in B.
    destruct H as [H|H]; [apply N.leb_gt in H | apply N.ltb_ge in H]; lia.
Qed.

Lemma try_body_records (tbl : case_table) (url : pystr) (st : N) (rs : pystr)
    (res : option (list record)) :
  passes st = true ->
  try_body tbl url (Requests.Response st rs (Requests.Decoded (Requests.JObject res)))
  = Returned (normalized tbl (results_of res)).
Proof.
  intros Hst. unfold try_body. cbn [Requests.get bind].
  rewrite raise_for_status_passes by exact Hst. cbn [bind Requests.json_of Requests.payload].
  assert (E : get_results (Requests.JObject res) = Returned (results_of res))
    by (destruct res; reflexivity).
  rewrite E. cbn [bind]. fold (prepared (results_of res)).
  assert (M : forall c, In c expected_columns ->
                        mem c (columns (prepared (results_of res))) = true)
    by (intros c; apply prepared_columns).
  assert (Ms : mem c_state (columns (prepared (results_of res))) = true)
    by (apply M; cbn; tauto).
  assert (Mc : mem c_city (columns (prepared (results_of res))) = true)
    by (apply M; cbn; tauto).
  assert (Mk : mem c_callsign (columns (prepared (results_of res))) = true)
    by (apply M; cbn; tauto).
  unfold transform, sort_values. cbn [columns rows bind].
  rewrite Ms. cbn [columns rows bind]. rewrite Mc. cbn [columns rows bind].
  rewrite Mk. cbn [columns rows bind filter].
  rewrite Ms, Mc, Mk. cbn [negb].
  unfold normalized. rewrite !map_map. reflexivity.
Qed.

Lemma fetch_data_records (tbl : case_table) (url : pystr) (st : N) (rs : pystr)
    (res : option (list record)) :
  passes st = true ->
  fetch_data tbl url (Requests.Response st rs (Requests.Decoded (Requests.JObject res)))
  = Returned (mkfetched (normalized tbl (results_of res)) []).
Proof.
  intros Hst. unfold fetch_data. rewrite try_body_records by exact Hst. reflexivity.
Qed.

(** ** Fetch failures *)

(** A call is recovered when it returns the empty frame and reports one
    non-empty message. *)
Definition recovered (tbl : case_table) (url : pystr) (w : Requests.reply) : Prop :=
  exists msg, fetch_data tbl url w = Returned (mkfetched empty_frame [msg]) /\ msg <> [].

(** The failures as the specification lists them: network error, timeout,
    a status outside 200..299, a payload that is not JSON of the expected
    shape. *)
Definition failure_as_specified (w : Requests.reply) : Prop :=
  match w with
  | Requests.Unreachable _ | Requests.TimedOut _ => True
  | Requests.Response st _ b =>
      ((st < 200)%N \/ (300 <= st)%N)
      \/ (exists msg, b = Requests.Undecodable msg)
      \/ b = Requests.Decoded Requests.JNotObject
  end.

(** The failures the handler of line 32 takes: network error, timeout, a
    status in 400..599, a body that is not JSON. *)
Definition failure_as_handled (w : Requests.reply) : Prop :=
  match w with
  | Requests.Unreachable _ | Requests.TimedOut _ => True
  | Requests.Response st _ b =>
      passes st = false \/ (exists msg, b = Requests.Undecodable msg)
  end.

Definition one_record : list record := [[(c_callsign, JStr (py "ce3abc"))]].

(** C1, as stated, fails: a 300 reply with a JSON body is taken as data, and a
    body that decodes to something other than an object raises
    [AttributeError] out of [fetch_data]. *)
Lemma fetch_failure_not_always_recovered :
  (failure_as_specified
     (Requests.Response 300 (py "Multiple Choices")
        (Requests.Decoded (Requests.JObject (Some one_record))))
   /\ ~ recovered latin1_table API_URL
        (Requests.Response 300 (py "Multiple Choices")
           (Requests.Decoded (Requests.JObject (Some one_record)))))
  /\ (failure_as_specified (Requests.Response 200 (py "OK") (Requests.Decoded Requests.JNotObject))
      /\ fetch_data latin1_table API_URL
           (Requests.Response 200 (py "OK") (Requests.Decoded Requests.JNotObject))
         = Raised AttributeError
      /\ ~ recovered latin1_table API_URL
           (Requests.Response 200 (py "OK") (Requests.Decoded Requests.JNotObject))).
Proof.
  split; [split | split; [|split]].
  - simpl. left. right. lia.
  - intros [msg [E _]]. vm_compute in E. discriminate E.
  - simpl. right. right. reflexivity.
  - reflexivity.
  - intros [msg [E _]]. vm_compute in E. discriminate E.
Qed.

(** C1, amended: on a network error, a timeout, a 4xx or 5xx status, or a
    body that is not JSON, [fetch_data] returns the empty frame and reports
    one message, which starts with the fixed text and so is not empty;
    nothing is raised. *)
Theorem fetch_failure_recovered (tbl : case_table) (url : pystr) (w : Requests.reply) :
  failure_as_handled w ->
  exists e,
    fetch_data tbl url w
    = Returned (mkfetched empty_frame [py "Error consultando la API: " ++ e])
    /\ py "Error consultando la API: " ++ e <> []
    /\ is_empty empty_frame = true.
Proof.
  intros H. destruct w as [msg|msg|st rs b].
  - exists msg. repeat split. discriminate.
  - exists msg. repeat split. discriminate.
  - simpl in H. unfold fetch_data, try_body. cbn [Requests.get bind].
    unfold Requests.raise_for_status. cbn [Requests.status_code Requests.reason_phrase].
    destruct ((400 <=? st) && (st <? 500))%N eqn:E4.
    + eexists. repeat split. discriminate.
    + destruct ((500 <=? st) && (st <? 600))%N eqn:E5.
      * eexists. repeat split. discriminate.
      * destruct H as [H|[msg ->]].
        -- exfalso. unfold passes in H. apply negb_false_iff in H.
           apply andb_true_iff in H. destruct H as [A B].
           apply N.leb_le in A. apply N.ltb_lt in B.
           apply andb_false_iff in E4. apply andb_false_iff in E5.
           destruct E4 as [E4|E4]; [apply N.leb_gt in E4 | apply N.ltb_ge in E4];
             destruct E5 as [E5|E5]; [apply N.leb_gt in E5 | apply N.ltb_ge in E5
                                     | apply N.leb_gt in E5 | apply N.ltb_ge in E5]; lia.
        -- exists msg. repeat split. discriminate.
Qed.

Lemma fetch_failure_recovered_witness :
  failure_as_handled (Requests.Response 404 (py "Not Found") (Requests.Undecodable []))
  /\ exists e,
       fetch_data latin1_table API_URL
         (Requests.Response 404 (py "Not Found") (Requests.Undecodable []))
       = Returned (mkfetched empty_frame [py "Error consultando la API: " ++ e])
       /\ py "Error consultando la API: " ++ e <> []
       /\ is_empty empty_frame = true.
Proof.
  assert (H : failure_as_handled
                (Requests.Response 404 (py "Not Found") (Requests.Undecodable [])))
    by (left; reflexivity).
  split; [exact H|].
  exact (fetch_failure_recovered latin1_table API_URL _ H).
Defined.

(** ** The row built for one record *)

Definition payload_columns (results : list record) : list pystr :=
  unique (flat_map (map fst) results).

(** Lines 20: the record laid out under the payload's columns. *)
Definition raw_row (cols : list pystr) (d : record) : row :=
  map (fun c => (c, cell_of (lookup c d))) cols.

Definition raw_rows (results : list record) : list row :=
  map (raw_row (payload_columns results)) results.

Definition infer_row (rs : list row) (r : row) : row :=
  map (fun kv => if float_column (fst kv) rs then (fst kv, CNaN) else kv) r.

(** Lines 22-24: the cells appended for the expected columns the payload lacks. *)
Definition padding (results : list record) : row :=
  map (fun c => (c, CNone)) (added expected_columns (payload_columns results)).

(** The row of [prepared results] that stands for record [d]. *)
Definition built_row (results : list record) (d : record) : row :=
  infer_row (raw_rows results) (raw_row (payload_columns results) d) ++ padding results.

(** The row of the fetched frame that stands for record [d]. *)
Definition row_of (tbl : case_table) (results : list record) (d : record) : row :=
  normalize_row tbl (built_row results d).

Lemma prepared_rows (results : list record) :
  rows (prepared results) = map (built_row results) results.
Proof.
  unfold prepared. rewrite ensure_fold. cbn [rows columns DataFrame].
  unfold infer_objects. rewrite !map_map. reflexivity.
Qed.

Lemma normalized_rows (tbl : case_table) (results : list record) :
  rows (normalized tbl results)
  = sort (row_leb sort_by) (map (row_of tbl results) results).
Proof.
  unfold normalized. cbn [rows]. rewrite prepared_rows, map_map. reflexivity.
Qed.

Lemma normalized_perm (tbl : case_table) (results : list record) :
  Permutation (rows (normalized tbl results)) (map (row_of tbl results) results).
Proof.
  rewrite normalized_rows. symmetry. apply sort_perm.
Qed.

Lemma built_row_keys (results : list record) (d : record) :
  In d results -> map fst (built_row results d) = columns (prepared results).
Proof.
  intros Hd. pose proof (prepared_aligned results) as Ha. unfold aligned in Ha.
  rewrite Forall_forall in Ha. apply Ha. rewrite prepared_rows. apply in_map, Hd.
Qed.

Lemma built_row_binds (results : list record) (d : record) (c : pystr) :
  In d results -> In c expected_columns -> In c (map fst (built_row results d)).
Proof.
  intros Hd Hc. rewrite built_row_keys by exact Hd. apply mem_In, prepared_columns, Hc.
Qed.

Lemma lookup_raw_row (cols : list pystr) (d : record) (c : pystr) :
  lookup c (raw_row cols d) = if mem c cols then Some (cell_of (lookup c d)) else None.
Proof.
  unfold raw_row. induction cols as [|k cols IH]; simpl; [reflexivity|].
  destruct (str_eqb c k) eqn:E; [|exact IH].
  apply str_eqb_eq in E. subst. reflexivity.
Qed.

Lemma lookup_infer_row (rs : list row) (r : row) (c : pystr) :
  lookup c (infer_row rs r)
  = match lookup c r with
    | Some v => Some (if float_column c rs then CNaN else v)
    | None => None
    end.
Proof.
  unfold infer_row. induction r as [|[k v] r IH]; simpl; [reflexivity|].
  destruct (float_column k rs) eqn:F; simpl; destruct (str_eqb c k) eqn:E; try exact IH.
  - apply str_eqb_eq in E. subst. rewrite F. reflexivity.
  - apply str_eqb_eq in E. subst. rewrite F. reflexivity.
Qed.

(** A column of the payload is inferred as float when no record holds a
    string under it and some record lacks it. *)
Definition no_text (c : pystr) (results : list record) : bool :=
  forallb (fun d => isna (cell_of (lookup c d))) results.

Definition some_missing (c : pystr) (results : list record) : bool :=
  existsb (fun d => is_nan (cell_of (lookup c d))) results.

Lemma forallb_map_ext (A B : Type) (f : B -> bool) (g : A -> B) (h : A -> bool) (l : list A) :
  (forall x, f (g x) = h x) -> forallb f (map g l) = forallb h l.
Proof.
  intros E. induction l as [|x l IH]; [reflexivity|]. cbn [map forallb]. rewrite E, IH. reflexivity.
Qed.

Lemma existsb_map_ext (A B : Type) (f : B -> bool) (g : A -> B) (h : A -> bool) (l : list A) :
  (forall x, f (g x) = h x) -> existsb f (map g l) = existsb h l.
Proof.
  intros E. induction l as [|x l IH]; [reflexivity|]. cbn [map existsb]. rewrite E, IH. reflexivity.
Qed.

Lemma float_column_raw (results : list record) (c : pystr) :
  mem c (payload_columns results) = true ->
  float_column c (raw_rows results) = no_text c results && some_missing c results.
Proof.
  intros Hc. unfold float_column, raw_rows, no_text, some_missing.
  assert (E : forall d, cell_at c (raw_row (payload_columns results) d) = cell_of (lookup c d))
    by (intros d; unfold cell_at; rewrite lookup_raw_row, Hc; reflexivity).
  f_equal.
  - apply forallb_map_ext. intros d. rewrite E. reflexivity.
  - apply existsb_map_ext. intros d. rewrite E. reflexivity.
Qed.

(** The cell under column [c] after lines 20-24, from the payload. *)
Definition built_cell (results : list record) (d : record) (c : pystr) : cell :=
  if mem c (payload_columns results)
  then (if no_text c results && some_missing c results then CNaN else cell_of (lookup c d))
  else CNone.

Lemma cell_at_built_row (results : list record) (d : record) (c : pystr) :
  In c expected_columns ->
  cell_at c (built_row results d) = built_cell results d c.
Proof.
  intros Hc. unfold cell_at, built_row, built_cell.
  rewrite lookup_app, lookup_infer_row, lookup_raw_row.
  destruct (mem c (payload_columns results)) eqn:E.
  - rewrite float_column_raw by exact E. reflexivity.
  - unfold padding. rewrite lookup_const.
    assert (H : mem c (added expected_columns (payload_columns results)) = true)
      by (apply mem_In, added_In; assumption).
    rewrite H. reflexivity.
Qed.

Lemma normalize_row_keys (tbl : case_table) (r : row) :
  map fst (normalize_row tbl r) = map fst r.
Proof. unfold normalize_row. rewrite !update_keys. reflexivity. Qed.

Lemma normalize_row_state (tbl : case_table) (r : row) :
  In c_state (map fst r) ->
  cell_at c_state (normalize_row tbl r)
  = CStr (strip (str_of (fillna sin_region (cell_at c_state r)))).
Proof.
  intros H. unfold normalize_row.
  rewrite cell_at_update by (rewrite !update_keys; exact H).
  change (str_eqb c_state c_callsign) with false. cbv iota.
  rewrite cell_at_update by (rewrite !update_keys; exact H).
  change (str_eqb c_state c_city) with false. cbv iota.
  rewrite cell_at_update by exact H.
  change (str_eqb c_state c_state) with true. cbv iota. reflexivity.
Qed.

Lemma normalize_row_city (tbl : case_table) (r : row) :
  In c_city (map fst r) ->
  cell_at c_city (normalize_row tbl r)
  = CStr (strip (str_of (fillna sin_ciudad (cell_at c_city r)))).
Proof.
  intros H. unfold normalize_row.
  rewrite cell_at_update by (rewrite !update_keys; exact H).
  change (str_eqb c_city c_callsign) with false. cbv iota.
  rewrite cell_at_update by (rewrite !update_keys; exact H).
  change (str_eqb c_city c_city) with true. cbv iota.
  rewrite cell_at_update by exact H.
  change (str_eqb c_city c_state) with false. cbv iota. reflexivity.
Qed.

Lemma normalize_row_callsign (tbl : case_table) (r : row) :
  In c_callsign (map fst r) ->
  cell_at c_callsign (normalize_row tbl r)
  = CStr (upper tbl (str_of (cell_at c_callsign r))).
Proof.
  intros H. unfold normalize_row.
  rewrite cell_at_update by (rewrite !update_keys; exact H).
  change (str_eqb c_callsign c_callsign) with true. cbv iota.
  rewrite cell_at_update by (rewrite !update_keys; exact H).
  change (str_eqb c_callsign c_city) with false. cbv iota.
  rewrite cell_at_update by exact H.
  change (str_eqb c_callsign c_state) with false. cbv iota. reflexivity.
Qed.

Lemma normalize_row_other (tbl : case_table) (r : row) (c : pystr) :
  str_eqb c c_state = false -> str_eqb c c_city = false -> str_eqb c c_callsign = false ->
  cell_at c (normalize_row tbl r) = cell_at c r.
Proof.
  intros Hs Hc Hk. unfold normalize_row, cell_at.
  rewrite !lookup_update, Hs, Hc, Hk. destruct (lookup c r); reflexivity.
Qed.

Lemma strip_sin_region : strip sin_region = sin_region.
Proof. reflexivity. Qed.

Lemma strip_sin_ciudad : strip sin_ciudad = sin_ciudad.
Proof. reflexivity. Qed.

Lemma absent_column (results : list record) (c : pystr) :
  (forall d, In d results -> lookup c d = None) -> mem c (payload_columns results) = false.
Proof.
  intros H. destruct (mem c (payload_columns results)) eqn:E; [|reflexivity].
  exfalso. apply mem_In in E. unfold payload_columns in E. apply (proj1 (unique_In _ _)) in E.
  apply in_flat_map in E. destruct E as [d [Hd Hc]].
  specialize (H d Hd). apply lookup_None in H. contradiction.
Qed.

Lemma built_cell_isna (results : list record) (d : record) (c : pystr) :
  lookup c d = None \/ lookup c d = Some JNull -> isna (built_cell results d c) = true.
Proof.
  intros H. unfold built_cell.
  destruct (mem c (payload_columns results)); [|reflexivity].
  destruct (no_text c results && some_missing c results); [reflexivity|].
  destruct H as [-> | ->]; reflexivity.
Qed.

Lemma fillna_isna (v : pystr) (c : cell) : isna c = true -> fillna v c = CStr v.
Proof. unfold fillna. intros ->. reflexivity. Qed.

Lemma row_of_in (tbl : case_table) (results : list record) (r : row) :
  In r (rows (normalized tbl results)) ->
  exists d, In d results /\ r = row_of tbl results d.
Proof.
  intros H. apply (Permutation_in _ (normalized_perm tbl results)) in H.
  apply in_map_iff in H. destruct H as [d [E Hd]]. exists d. split; [assumption | congruence].
Qed.

Lemma normalized_aligned (tbl : case_table) (results : list record) :
  aligned (normalized tbl results).
Proof.
  unfold aligned. apply Forall_forall. intros r Hr.
  apply row_of_in in Hr. destruct Hr as [d [Hd ->]].
  unfold row_of. rewrite normalize_row_keys. apply built_row_keys, Hd.
Qed.

(** ** The schema and the sentinels *)

(** No record of the payload has the key. *)
Definition absent (c : pystr) (results : list record) : Prop :=
  forall d, In d results -> lookup c d = None.

Definition ok_reply (results : list record) : Requests.reply :=
  Requests.Response 200 (py "OK") (Requests.Decoded (Requests.JObject (Some results))).

(** C5, as stated, fails: the payload below has no [state] key, and the
    normalized frame holds the sentinel, not a null, in that column. *)
Lemma absent_state_column_is_not_null :
  exists df,
    fetch_data latin1_table API_URL (ok_reply one_record) = Returned (mkfetched df [])
    /\ absent c_state one_record
    /\ map (cell_at c_state) (rows df) = [CStr sin_region]
    /\ ~ Forall (fun r => isna (cell_at c_state r) = true) (rows df).
Proof.
  eexists. split; [vm_compute; reflexivity|]. split; [|split].
  - intros d [<-|[]]. reflexivity.
  - reflexivity.
  - intros H. inversion H as [|r rs Hr _]. vm_compute in Hr. discriminate Hr.
Qed.

(** C5, amended: after a successful fetch the frame has all seven expected
    columns and every row binds them.  A column no record of the payload
    carries is null in every row when it is radio_id, fname, lname or
    last_seen; it holds the sentinel in every row when it is state or city,
    and the uppercased text of [None] when it is callsign. *)
Theorem expected_columns_always_present (tbl : case_table) (url : pystr) (st : N)
    (rs : pystr) (res : option (list record)) :
  passes st = true ->
  exists df,
    fetch_data tbl url (Requests.Response st rs (Requests.Decoded (Requests.JObject res)))
    = Returned (mkfetched df [])
    /\ (forall c, In c expected_columns -> In c (columns df))
    /\ aligned df
    /\ (forall c r, In c [c_radio_id; c_fname; c_lname; c_last_seen] ->
          absent c (results_of res) -> In r (rows df) -> cell_at c r = CNone)
    /\ (forall r, absent c_state (results_of res) -> In r (rows df) ->
          cell_at c_state r = CStr sin_region)
    /\ (forall r, absent c_city (results_of res) -> In r (rows df) ->
          cell_at c_city r = CStr sin_ciudad)
    /\ (forall r, absent c_callsign (results_of res) -> In r (rows df) ->
          cell_at c_callsign r = CStr (upper tbl (py "None"))).
Proof.
  intros Hst. exists (normalized tbl (results_of res)).
  split; [apply fetch_data_records, Hst|].
  set (results := results_of res).
  split; [intros c Hc; apply mem_In; unfold normalized; cbn [columns];
          apply prepared_columns, Hc|].
  split; [apply normalized_aligned|].
  assert (B : forall c d, In c expected_columns -> absent c results ->
                          cell_at c (built_row results d) = CNone).
  { intros c d Hc Ha. rewrite cell_at_built_row by exact Hc.
    unfold built_cell. rewrite (absent_column results c Ha). reflexivity. }
  split; [|split; [|split]].
  - intros c r Hc Ha Hr. apply row_of_in in Hr. destruct Hr as [d [Hd ->]].
    unfold row_of. cbn [In] in Hc.
    destruct Hc as [<-|[<-|[<-|[<-|[]]]]];
      (rewrite normalize_row_other by reflexivity; apply B; [cbn; tauto | exact Ha]).
  - intros r Ha Hr. apply row_of_in in Hr. destruct Hr as [d [Hd ->]].
    unfold row_of. rewrite normalize_row_state by (apply built_row_binds; [exact Hd | cbn; tauto]).
    rewrite B by (cbn; tauto || exact Ha). reflexivity.
  - intros r Ha Hr. apply row_of_in in Hr. destruct Hr as [d [Hd ->]].
    unfold row_of. rewrite normalize_row_city by (apply built_row_binds; [exact Hd | cbn; tauto]).
    rewrite B by (cbn; tauto || exact Ha). reflexivity.
  - intros r Ha Hr. apply row_of_in in Hr. destruct Hr as [d [Hd ->]].
    unfold row_of.
    rewrite normalize_row_callsign by (apply built_row_binds; [exact Hd | cbn; tauto]).
    rewrite B by (cbn; tauto || exact Ha). reflexivity.
Qed.

Lemma expected_columns_always_present_witness :
  passes 200 = true
  /\ exists df,
       fetch_data latin1_table API_URL
         (Requests.Response 200 (py "OK") (Requests.Decoded (Requests.JObject (Some one_record))))
       = Returned (mkfetched df [])
       /\ (forall c, In c expected_columns -> In c (columns df))
       /\ aligned df
       /\ (forall c r, In c [c_radio_id; c_fname; c_lname; c_last_seen] ->
             absent c one_record -> In r (rows df) -> cell_at c r = CNone)
       /\ (forall r, absent c_state one_record -> In r (rows df) ->
             cell_at c_state r = CStr sin_region)
       /\ (forall r, absent c_city one_record -> In r (rows df) ->
             cell_at c_city r = CStr sin_ciudad)
       /\ (forall r, absent c_callsign one_record -> In r (rows df) ->
             cell_at c_callsign r = CStr (upper latin1_table (py "None"))).
Proof.
  split; [reflexivity|].
  exact (expected_columns_always_present latin1_table API_URL 200 (py "OK")
           (Some one_record) eq_refl).
Defined.

(** C6: after a successful fetch every row holds a string under state and
    under city; the row that stands for a record whose state (city) is
    missing or null holds the sentinel there. *)
Theorem state_and_city_never_null (tbl : case_table) (url : pystr) (st : N)
    (rs : pystr) (res : option (list record)) :
  passes st = true ->
  exists df,
    fetch_data tbl url (Requests.Response st rs (Requests.Decoded (Requests.JObject res)))
    = Returned (mkfetched df [])
    /\ Permutation (rows df) (map (row_of tbl (results_of res)) (results_of res))
    /\ (forall r, In r (rows df) ->
          exists s c, cell_at c_state r = CStr s /\ cell_at c_city r = CStr c)
    /\ (forall d, In d (results_of res) ->
          lookup c_state d = None \/ lookup c_state d = Some JNull ->
          cell_at c_state (row_of tbl (results_of res) d) = CStr sin_region)
    /\ (forall d, In d (results_of res) ->
          lookup c_city d = None \/ lookup c_city d = Some JNull ->
          cell_at c_city (row_of tbl (results_of res) d) = CStr sin_ciudad).
Proof.
  intros Hst. exists (normalized tbl (results_of res)).
  split; [apply fetch_data_records, Hst|].
  set (results := results_of res).
  split; [apply normalized_perm|].
  split; [|split].
  - intros r Hr. apply row_of_in in Hr. destruct Hr as [d [Hd ->]].
    unfold row_of. do 2 eexists. split.
    + apply normalize_row_state, built_row_binds; [exact Hd | cbn; tauto].
    + apply normalize_row_city, built_row_binds; [exact Hd | cbn; tauto].
  - intros d Hd Hn. unfold row_of.
    rewrite normalize_row_state by (apply built_row_binds; [exact Hd | cbn; tauto]).
    rewrite cell_at_built_row by (cbn; tauto).
    rewrite fillna_isna by (apply built_cell_isna, Hn). reflexivity.
  - intros d Hd Hn. unfold row_of.
    rewrite normalize_row_city by (apply built_row_binds; [exact Hd | cbn; tauto]).
    rewrite cell_at_built_row by (cbn; tauto).
    rewrite fillna_isna by (apply built_cell_isna, Hn). reflexivity.
Qed.

Definition two_records : list record :=
  [ [(c_state, JNull); (c_callsign, JStr (py "ce3abc"))];
    [(c_state, JStr (py "Chile-V")); (c_city, JStr (py "Quilpue"))] ].

Lemma state_and_city_never_null_witness :
  passes 200 = true
  /\ exists df,
       fetch_data latin1_table API_URL
         (Requests.Response 200 (py "OK") (Requests.Decoded (Requests.JObject (Some two_records))))
       = Returned (mkfetched df [])
       /\ Permutation (rows df) (map (row_of latin1_table two_records) two_records)
       /\ (forall r, In r (rows df) ->
             exists s c, cell_at c_state r = CStr s /\ cell_at c_city r = CStr c)
       /\ (forall d, In d two_records ->
             lookup c_state d = None \/ lookup c_state d = Some JNull ->
             cell_at c_state (row_of latin1_table two_records d) = CStr sin_region)
       /\ (forall d, In d two_records ->
             lookup c_city d = None \/ lookup c_city d = Some JNull ->
             cell_at c_city (row_of latin1_table two_records d) = CStr sin_ciudad).
Proof.
  split; [reflexivity|].
  exact (state_and_city_never_null latin1_table API_URL 200 (py "OK")
           (Some two_records) eq_refl).
Defined.

(** ** The filter stages *)

(** The frame has the seven expected columns. *)
Definition schema (d : frame) : Prop :=
  forall c, In c expected_columns -> mem c (columns d) = true.

(** The three row predicates of lines 88, 95 and 100-106. *)
Definition in_regions (selected_regions : list pystr) (r : row) : bool :=
  isin selected_regions (cell_at c_state r).

Definition in_cities (selected_cities : list pystr) (r : row) : bool :=
  match selected_cities with
  | [] => true
  | _ :: _ => isin selected_cities (cell_at c_city r)
  end.

Definition text_hits (tbl : case_table) (hit : cell -> bool) (r : row) : bool :=
  hit (as_is (astype_str (cell_at c_callsign r)))
  || hit (uppercased tbl (astype_str (cell_at c_fname r)))
  || hit (uppercased tbl (astype_str (cell_at c_lname r)))
  || hit (uppercased tbl (astype_str (cell_at c_city r)))
  || hit (uppercased tbl (astype_str (cell_at c_state r))).

(** The third predicate exists once the query compiles. *)
Definition text_predicate (tbl : case_table) (text : pystr) : outcome (row -> bool) :=
  match upper tbl (strip text) with
  | [] => Returned (fun _ => true)
  | q => hit <- str_contains q ;; Returned (text_hits tbl hit)
  end.

Lemma select_select (m1 m2 : row -> bool) (d : frame) :
  select m2 (select m1 d) = select (fun r => m1 r && m2 r) d.
Proof. unfold select. cbn [columns rows]. rewrite filter_filter. reflexivity. Qed.

Lemma select_all (m : row -> bool) (d : frame) :
  (forall r, In r (rows d) -> m r = true) -> select m d = d.
Proof.
  intros H. destruct d as [cols rs]. unfold select. cbn [columns rows] in *.
  rewrite filter_all by exact H. reflexivity.
Qed.

Lemma select_ext (m1 m2 : row -> bool) (d : frame) :
  (forall r, m1 r = m2 r) -> select m1 d = select m2 d.
Proof. intros H. unfold select. rewrite (filter_ext _ _ H). reflexivity. Qed.

Lemma schema_select (m : row -> bool) (d : frame) : schema d -> schema (select m d).
Proof. intros H c Hc. apply H, Hc. Qed.

Lemma series_schema (d : frame) (c : pystr) :
  schema d -> In c expected_columns -> series c d = Returned (map (cell_at c) (rows d)).
Proof. intros H Hc. unfold series. rewrite (H c Hc). reflexivity. Qed.

Lemma region_stage_schema (R : list pystr) (d : frame) :
  schema d -> region_stage R d = Returned (select (in_regions R) d).
Proof.
  intros H. unfold region_stage. rewrite series_schema by (assumption || (cbn; tauto)).
  reflexivity.
Qed.

Lemma city_stage_schema (C : list pystr) (d : frame) :
  schema d -> city_stage C d = Returned (select (in_cities C) d).
Proof.
  intros H. unfold city_stage. destruct C as [|c C].
  - rewrite select_all by reflexivity. reflexivity.
  - rewrite series_schema by (assumption || (cbn; tauto)). reflexivity.
Qed.

Lemma mask_schema (tbl : case_table) (q : pystr) (d : frame) :
  schema d -> mask tbl q d = (hit <- str_contains q ;; Returned (text_hits tbl hit)).
Proof.
  intros H. unfold mask, column_mask.
  rewrite !series_schema by (assumption || (cbn; tauto)). cbn [bind].
  destruct (str_contains q) as [hit|e|]; reflexivity.
Qed.

Lemma text_stage_schema (tbl : case_table) (text : pystr) (d : frame) :
  schema d ->
  text_stage tbl text d = (p <- text_predicate tbl text ;; Returned (select p d)).
Proof.
  intros H. unfold text_stage, text_predicate.
  destruct (upper tbl (strip text)) as [|c q] eqn:E.
  - cbn [bind]. rewrite select_all by reflexivity. reflexivity.
  - rewrite mask_schema by exact H.
    destruct (str_contains (c :: q)) as [hit|e|]; reflexivity.
Qed.

Lemma df_filtered_schema (tbl : case_table) (d : frame) (R C : list pystr) (text : pystr) :
  schema d ->
  df_filtered tbl d R C text
  = (p <- text_predicate tbl text ;;
     Returned (select (fun r => in_regions R r && in_cities C r && p r) d)).
Proof.
  intros H. unfold df_filtered.
  rewrite region_stage_schema by exact H. cbn [bind].
  rewrite city_stage_schema by (apply schema_select, H). cbn [bind].
  rewrite text_stage_schema by (do 2 apply schema_select; exact H).
  destruct (text_predicate tbl text) as [p|e|]; try reflexivity.
  cbn [bind]. rewrite !select_select. f_equal. apply select_ext.
  intros r. rewrite andb_assoc. reflexivity.
Qed.

Lemma normalized_schema (tbl : case_table) (results : list record) :
  schema (normalized tbl results).
Proof. intros c Hc. unfold normalized. cbn [columns]. apply prepared_columns, Hc. Qed.

Lemma try_body_schema (tbl : case_table) (url : pystr) (w : Requests.reply) (df : frame) :
  try_body tbl url w = Returned df -> schema df.
Proof.
  destruct w as [msg|msg|st rs [msg|[|res]]]; try discriminate.
  - unfold try_body. cbn [Requests.get bind].
    destruct (Requests.raise_for_status url (Requests.mkresponse st rs (Requests.Undecodable msg)));
      discriminate.
  - unfold try_body. cbn [Requests.get bind].
    destruct (Requests.raise_for_status url
                (Requests.mkresponse st rs (Requests.Decoded Requests.JNotObject)));
      discriminate.
  - destruct (passes st) eqn:Hst.
    + rewrite try_body_records by exact Hst. intros E. injection E as <-.
      apply normalized_schema.
    + unfold try_body. cbn [Requests.get bind].
      unfold Requests.raise_for_status. cbn [Requests.status_code].
      unfold passes in Hst. apply negb_false_iff in Hst.
      destruct ((400 <=? st) && (st <? 500))%N eqn:E4; [discriminate|].
      destruct ((500 <=? st) && (st <? 600))%N eqn:E5; [discriminate|].
      exfalso. apply andb_true_iff in Hst. destruct Hst as [A B].
      apply N.leb_le in A. apply N.ltb_lt in B.
      apply andb_false_iff in E4. apply andb_false_iff in E5.
      destruct E4 as [E4|E4]; [apply N.leb_gt in E4 | apply N.ltb_ge in E4];
        destruct E5 as [E5|E5]; [apply N.leb_gt in E5 | apply N.ltb_ge in E5
                                | apply N.leb_gt in E5 | apply N.ltb_ge in E5]; lia.
Qed.

(** Without a refresh, the frame the page goes on with has the expected
    columns and at least one row. *)
Lemma load_schema (tbl : case_table) (url : pystr) (w : Requests.reply) (df : frame)
    (msgs : list pystr) :
  load tbl url w None = Returned (Loaded df msgs) -> schema df /\ rows df <> [].
Proof.
  unfold load, fetch_data.
  destruct (try_body tbl url w) as [d|[k e| | |]|] eqn:E; cbn [bind table reported];
    try discriminate.
  - destruct (is_empty d) eqn:Ee; [discriminate|]. intros H. injection H as <- <-.
    split; [eapply try_body_schema, E|].
    unfold is_empty in Ee. destruct (columns d); [discriminate|].
    destruct (rows d); [discriminate | discriminate].
Qed.


(** ** Order *)

(** [r1 <= r2] under (state, city, callsign), nulls last. *)
Definition row_le (r1 r2 : row) : Prop := row_leb sort_by r1 r2 = true.

Lemma row_leb_total (r1 r2 : row) : row_leb sort_by r1 r2 = false -> row_leb sort_by r2 r1 = true.
Proof. apply (leb_of_total (ordering_row sort_by)). Qed.

Lemma row_leb_trans (r1 r2 r3 : row) :
  row_leb sort_by r1 r2 = true -> row_leb sort_by r2 r3 = true -> row_leb sort_by r1 r3 = true.
Proof. apply (leb_of_trans (ordering_row sort_by)). Qed.

Lemma normalized_sorted (tbl : case_table) (results : list record) :
  Sorted row_le (rows (normalized tbl results)).
Proof.
  rewrite normalized_rows. apply (@sort_sorted _ (row_leb sort_by) row_leb_total).
Qed.

Lemma select_order (m : row -> bool) (d : frame) :
  subseq (rows (select m d)) (rows d)
  /\ (Sorted row_le (rows d) -> Sorted row_le (rows (select m d))).
Proof.
  unfold select. cbn [rows]. split.
  - apply filter_subseq.
  - apply (@filter_sorted _ (row_leb sort_by) row_leb_trans).
Qed.

(** A frame obtained from [d] by keeping some of its rows. *)
Definition selection (d d' : frame) : Prop := exists m, d' = select m d.

Lemma selection_refl (d : frame) : selection d d.
Proof. exists (fun _ => true). symmetry. apply select_all. reflexivity. Qed.

Lemma selection_trans (d1 d2 d3 : frame) : selection d1 d2 -> selection d2 d3 -> selection d1 d3.
Proof.
  intros [m1 ->] [m2 ->]. exists (fun r => m1 r && m2 r). apply select_select.
Qed.

Lemma region_stage_selection (R : list pystr) (d d' : frame) :
  region_stage R d = Returned d' -> selection d d'.
Proof.
  unfold region_stage, series. destruct (mem c_state (columns d)); cbn [bind]; [|discriminate].
  intros E. injection E as <-. eexists. reflexivity.
Qed.

Lemma city_stage_selection (C : list pystr) (d d' : frame) :
  city_stage C d = Returned d' -> selection d d'.
Proof.
  unfold city_stage, series. destruct C as [|c C].
  - intros E. injection E as <-. apply selection_refl.
  - destruct (mem c_city (columns d)); cbn [bind]; [|discriminate].
    intros E. injection E as <-. eexists. reflexivity.
Qed.

Lemma text_stage_selection (tbl : case_table) (text : pystr) (d d' : frame) :
  text_stage tbl text d = Returned d' -> selection d d'.
Proof.
  unfold text_stage. destruct (upper tbl (strip text)) as [|c q].
  - intros E. injection E as <-. apply selection_refl.
  - destruct (mask tbl (c :: q) d) as [m|e|]; cbn [bind]; try discriminate.
    intros E. injection E as <-. eexists. reflexivity.
Qed.

Lemma df_filtered_selection (tbl : case_table) (d d' : frame) (R C : list pystr) (text : pystr) :
  df_filtered tbl d R C text = Returned d' -> selection d d'.
Proof.
  unfold df_filtered.
  destruct (region_stage R d) as [d1|e|] eqn:E1; cbn [bind]; try discriminate.
  destruct (city_stage C d1) as [d2|e|] eqn:E2; cbn [bind]; try discriminate.
  intros E3.
  apply region_stage_selection in E1. apply city_stage_selection in E2.
  apply text_stage_selection in E3.
  eapply selection_trans; [|exact E3]. eapply selection_trans; eassumption.
Qed.

Lemma selection_order (d d' : frame) :
  selection d d' ->
  subseq (rows d') (rows d) /\ (Sorted row_le (rows d) -> Sorted row_le (rows d')).
Proof. intros [m ->]. apply select_order. Qed.

(** C7: the fetched frame is sorted by (state, city, callsign), each
    adjacent pair in order, and its three keys are strings, so no null is
    there to place; each filter stage, and the three together, keep some of
    the rows in place and so keep a sorted frame sorted. *)
Theorem sort_order_invariant (tbl : case_table) (url : pystr) (st : N) (rs : pystr)
    (res : option (list record)) (R C : list pystr) (text : pystr) :
  passes st = true ->
  exists df,
    fetch_data tbl url (Requests.Response st rs (Requests.Decoded (Requests.JObject res)))
    = Returned (mkfetched df [])
    /\ Sorted row_le (rows df)
    /\ (forall r c, In r (rows df) -> In c sort_by -> exists s, cell_at c r = CStr s)
    /\ (forall d d',
          region_stage R d = Returned d' \/ city_stage C d = Returned d'
          \/ text_stage tbl text d = Returned d' ->
          subseq (rows d') (rows d) /\ (Sorted row_le (rows d) -> Sorted row_le (rows d')))
    /\ (forall d', df_filtered tbl df R C text = Returned d' ->
          subseq (rows d') (rows df) /\ Sorted row_le (rows d')).
Proof.
  intros Hst. exists (normalized tbl (results_of res)).
  split; [apply fetch_data_records, Hst|].
  split; [apply normalized_sorted|].
  split; [|split].
  - intros r c Hr Hc. apply row_of_in in Hr. destruct Hr as [d [Hd ->]].
    unfold row_of. cbn [sort_by In] in Hc. destruct Hc as [<-|[<-|[<-|[]]]]; eexists.
    + apply normalize_row_state, built_row_binds; [exact Hd | cbn; tauto].
    + apply normalize_row_city, built_row_binds; [exact Hd | cbn; tauto].
    + apply normalize_row_callsign, built_row_binds; [exact Hd | cbn; tauto].
  - intros d d' [H|[H|H]]; apply selection_order.
    + eapply region_stage_selection, H.
    + eapply city_stage_selection, H.
    + eapply text_stage_selection, H.
  - intros d' H. apply df_filtered_selection, selection_order in H.
    destruct H as [H1 H2]. split; [exact H1 | apply H2, normalized_sorted].
Qed.

Lemma sort_order_invariant_witness :
  passes 200 = true
  /\ exists df,
       fetch_data latin1_table API_URL
         (Requests.Response 200 (py "OK") (Requests.Decoded (Requests.JObject (Some two_records))))
       = Returned (mkfetched df [])
       /\ Sorted row_le (rows df)
       /\ (forall r c, In r (rows df) -> In c sort_by -> exists s, cell_at c r = CStr s)
       /\ (forall d d',
             region_stage [py "Chile-V"] d = Returned d' \/ city_stage [] d = Returned d'
             \/ text_stage latin1_table (py "ce3") d = Returned d' ->
             subseq (rows d') (rows d) /\ (Sorted row_le (rows d) -> Sorted row_le (rows d')))
       /\ (forall d', df_filtered latin1_table df [py "Chile-V"] [] (py "ce3") = Returned d' ->
             subseq (rows d') (rows df) /\ Sorted row_le (rows d')).
Proof.
  split; [reflexivity|].
  exact (sort_order_invariant latin1_table API_URL 200 (py "OK") (Some two_records)
           [py "Chile-V"] [] (py "ce3") eq_refl).
Defined.

(** ** Patterns without special characters *)

(** No code point of [q] is special to [re]. *)
Definition plain (q : pystr) : bool := forallb (fun c => negb (Re.special c)) q.

Lemma scan_plain_char (c : N) (q : pystr) (lvl : Re.level) (st : list Re.level) :
  Re.special c = false ->
  Re.scan (c :: q) lvl st = Re.scan q (Re.push (Re.Chr c) lvl) st.
Proof.
  intros H. unfold Re.special, Re.specials in H. cbn [existsb] in H.
  repeat (apply orb_false_iff in H; destruct H as [?E H]).
  cbn [Re.scan].
  repeat match goal with
         | E : N.eqb c _ = false |- _ => rewrite E
         end.
  cbn [orb]. reflexivity.
Qed.

Lemma scan_plain (q : pystr) (lvl : Re.level) :
  plain q = true ->
  Re.scan q lvl []
  = Re.Pattern (Re.close (Re.mklevel (Re.branches lvl)
                            (rev (map Re.Chr q) ++ Re.items lvl) false)).
Proof.
  revert lvl; induction q as [|c q IH]; intros lvl H.
  - reflexivity.
  - cbn [plain forallb] in H. apply andb_true_iff in H. destruct H as [Hc Hq].
    apply negb_true_iff in Hc. rewrite scan_plain_char by exact Hc.
    rewrite IH by exact Hq. cbn [Re.push Re.branches Re.items map rev].
    rewrite <- app_assoc. reflexivity.
Qed.

Lemma compile_plain (q : pystr) :
  plain q = true -> Re.compile q = Re.Pattern (Re.cat_all (map Re.Chr q)).
Proof.
  intros H. unfold Re.compile. rewrite scan_plain by exact H.
  unfold Re.close, Re.fresh. cbn [Re.branches Re.items].
  rewrite app_nil_r, rev_involutive. reflexivity.
Qed.

Lemma match_here_Void (s : pystr) : Re.match_here Re.Void s = false.
Proof. induction s as [|c s IH]; [reflexivity | exact IH]. Qed.

Lemma match_here_Alt (a b : Re.regex) (s : pystr) :
  Re.match_here (Re.Alt a b) s = Re.match_here a s || Re.match_here b s.
Proof.
  revert a b; induction s as [|c s IH]; intros a b; cbn [Re.match_here Re.nullable Re.deriv].
  - rewrite !orb_false_r. reflexivity.
  - rewrite IH. destruct (Re.nullable a), (Re.nullable b), (Re.match_here (Re.deriv c a) s);
      reflexivity.
Qed.

Lemma match_here_Cat_Void (r : Re.regex) (s : pystr) :
  Re.match_here (Re.Cat Re.Void r) s = false.
Proof.
  induction s as [|c s IH]; [reflexivity|].
  cbn [Re.match_here Re.nullable Re.deriv andb orb].
  rewrite match_here_Alt, IH, match_here_Void. reflexivity.
Qed.

Lemma match_here_Cat_Eps (r : Re.regex) (s : pystr) :
  Re.match_here (Re.Cat Re.Eps r) s = Re.match_here r s.
Proof.
  destruct s as [|c s]; cbn [Re.match_here Re.nullable Re.deriv andb].
  - reflexivity.
  - rewrite match_here_Alt, match_here_Cat_Void. reflexivity.
Qed.

Lemma match_here_Cat_Chr (c : N) (r : Re.regex) (s : pystr) :
  Re.match_here (Re.Cat (Re.Chr c) r) s
  = match s with
    | [] => false
    | x :: s' => (c =? x)%N && Re.match_here r s'
    end.
Proof.
  destruct s as [|x s]; cbn [Re.match_here Re.nullable Re.deriv andb orb]; [reflexivity|].
  rewrite match_here_Alt, match_here_Void, orb_false_r, (N.eqb_sym c x).
  destruct (x =? c)%N; [apply match_here_Cat_Eps | apply match_here_Cat_Void].
Qed.

Lemma match_here_literal (p s : pystr) :
  Re.match_here (Re.cat_all (map Re.Chr p)) s = startswith p s.
Proof.
  revert s; induction p as [|c p IH]; intros s.
  - destruct s; reflexivity.
  - cbn [map Re.cat_all fold_right]. rewrite match_here_Cat_Chr.
    destruct s as [|x s]; [reflexivity|]. cbn [startswith].
    fold (Re.cat_all (map Re.Chr p)). rewrite IH. reflexivity.
Qed.

Lemma search_literal (p s : pystr) :
  Re.search (Re.cat_all (map Re.Chr p)) s = occurs p s.
Proof.
  induction s as [|x s IH]; cbn [Re.search occurs]; rewrite match_here_literal.
  - reflexivity.
  - rewrite IH. reflexivity.
Qed.

(** On a query without special characters, [str.contains] is [in]. *)
Lemma str_contains_plain (q : pystr) :
  plain q = true ->
  str_contains q
  = Returned (fun c => match c with CStr s => Re.search (Re.cat_all (map Re.Chr q)) s
                                  | _ => false end).
Proof. intros H. unfold str_contains. rewrite compile_plain by exact H. reflexivity. Qed.

(** ** The text query *)

(** The row predicate of lines 100-106 for a query [q] (already stripped
    and uppercased) without special characters: [q] occurs in the callsign
    text as it stands, or in the uppercased text of one of the other four
    fields. *)
Definition plain_hits (tbl : case_table) (q : pystr) (r : row) : bool :=
  occurs q (str_of (cell_at c_callsign r))
  || occurs q (upper tbl (str_of (cell_at c_fname r)))
  || occurs q (upper tbl (str_of (cell_at c_lname r)))
  || occurs q (upper tbl (str_of (cell_at c_city r)))
  || occurs q (upper tbl (str_of (cell_at c_state r))).

Lemma text_stage_blank (tbl : case_table) (text : pystr) (d : frame) :
  strip text = [] -> text_stage tbl text d = Returned d.
Proof. intros H. unfold text_stage. rewrite H. reflexivity. Qed.

Lemma text_stage_plain (tbl : case_table) (text : pystr) (d : frame) :
  schema d ->
  upper tbl (strip text) <> [] ->
  plain (upper tbl (strip text)) = true ->
  text_stage tbl text d = Returned (select (plain_hits tbl (upper tbl (strip text))) d).
Proof.
  intros Hs Hne Hp. rewrite text_stage_schema by exact Hs. unfold text_predicate.
  destruct (upper tbl (strip text)) as [|c q] eqn:E; [congruence|].
  rewrite str_contains_plain by exact Hp. cbn [bind]. f_equal. apply select_ext.
  intros r. unfold text_hits, plain_hits, as_is, uppercased, astype_str, str_method.
  rewrite !search_literal. reflexivity.
Qed.

(** The text filter in the specification's words: a non-blank query keeps
    the rows where it occurs, case aside, in one of the five fields. *)
Definition occurs_ignoring_case (tbl : case_table) (query : pystr) (field : cell) : bool :=
  match field with
  | CStr s => occurs (upper tbl query) (upper tbl s)
  | _ => false
  end.

Definition text_filter_as_specified (tbl : case_table) (query : pystr) (d : frame) : frame :=
  match strip query with
  | [] => d
  | _ :: _ =>
      select (fun r =>
                existsb (fun c => occurs_ignoring_case tbl query (cell_at c r))
                  [c_callsign; c_fname; c_lname; c_city; c_state]) d
  end.

(** The table of the specification's example. *)
Definition example_records : list record :=
  [ [(c_state, JStr (py "Chile-RM")); (c_city, JStr (py "Santiago"));
     (c_callsign, JStr (py "ce3abc"))];
    [(c_state, JStr (py "Chile-V")); (c_city, JStr (py "Valpara" ++ [237%N] ++ py "so"));
     (c_callsign, JStr (py "ce4xyz"))] ].

Definition example_table : frame := normalized latin1_table example_records.

Lemma example_table_fetched :
  fetch_data latin1_table API_URL (ok_reply example_records)
  = Returned (mkfetched example_table []).
Proof. apply fetch_data_records. reflexivity. Qed.

(** The specification's examples: "CE3" keeps the first row only, "valpar"
    the second only. *)
Lemma example_queries :
  (exists d, text_stage latin1_table (py "CE3") example_table = Returned d
             /\ map (cell_at c_callsign) (rows d) = [CStr (py "CE3ABC")])
  /\ (exists d, text_stage latin1_table (py "valpar") example_table = Returned d
                /\ map (cell_at c_callsign) (rows d) = [CStr (py "CE4XYZ")]).
Proof. split; eexists; split; vm_compute; reflexivity. Qed.

(** C4, as stated, fails: the query " ce3" is not blank and occurs in no
    field of the example table, yet the script, which strips the query
    first, keeps the CE3ABC row. *)
Lemma padded_query_still_matches :
  strip (py " ce3") <> []
  /\ rows (text_filter_as_specified latin1_table (py " ce3") example_table) = []
  /\ exists d, text_stage latin1_table (py " ce3") example_table = Returned d
               /\ map (cell_at c_callsign) (rows d) = [CStr (py "CE3ABC")].
Proof.
  split; [vm_compute; discriminate|]. split; [vm_compute; reflexivity|].
  eexists; split; vm_compute; reflexivity.
Qed.

(** C4, amended: with q the query stripped and then uppercased, a blank
    query (q empty) keeps every row; a q that is not empty and has no
    character special to regular expressions keeps exactly the rows where q
    occurs in the callsign text as it stands or in the uppercased text of
    fname, lname, city or state. *)
Theorem text_filter_plain_query (tbl : case_table) (text : pystr) (d : frame) :
  schema d ->
  (strip text = [] -> text_stage tbl text d = Returned d)
  /\ (upper tbl (strip text) <> [] -> plain (upper tbl (strip text)) = true ->
      text_stage tbl text d
      = Returned (select (plain_hits tbl (upper tbl (strip text))) d)
      /\ forall r, In r (rows (select (plain_hits tbl (upper tbl (strip text))) d))
                   <-> In r (rows d) /\ plain_hits tbl (upper tbl (strip text)) r = true).
Proof.
  intros Hs. split; [apply text_stage_blank|].
  intros Hne Hp. split; [apply text_stage_plain; assumption|].
  intros r. unfold select. cbn [rows]. apply filter_In.
Qed.

Lemma text_filter_plain_query_witness :
  schema example_table
  /\ (strip (py "  ") = []
      /\ text_stage latin1_table (py "  ") example_table = Returned example_table)
  /\ (upper latin1_table (strip (py "valpar")) <> []
      /\ plain (upper latin1_table (strip (py "valpar"))) = true
      /\ text_stage latin1_table (py "valpar") example_table
         = Returned (select (plain_hits latin1_table (upper latin1_table (strip (py "valpar"))))
                       example_table)
      /\ forall r,
           In r (rows (select (plain_hits latin1_table
                                 (upper latin1_table (strip (py "valpar")))) example_table))
           <-> In r (rows example_table)
               /\ plain_hits latin1_table (upper latin1_table (strip (py "valpar"))) r = true).
Proof.
  assert (H : schema example_table) by apply normalized_schema.
  assert (B : strip (py "  ") = []) by reflexivity.
  assert (N : upper latin1_table (strip (py "valpar")) <> []) by (vm_compute; discriminate).
  assert (P : plain (upper latin1_table (strip (py "valpar"))) = true) by reflexivity.
  split; [exact H|]. split.
  - split; [exact B|].
    exact (proj1 (text_filter_plain_query latin1_table (py "  ") H) B).
  - split; [exact N|]. split; [exact P|].
    exact (proj2 (text_filter_plain_query latin1_table (py "valpar") H) N P).
Defined.

(** ** Composition of the stages *)

Lemma sorted_In (x : pystr) (xs : list pystr) : In x (sorted xs) <-> In x xs.
Proof.
  unfold sorted. split; intros H.
  - eapply Permutation_in; [symmetry; apply sort_perm | exact H].
  - eapply Permutation_in; [apply sort_perm | exact H].
Qed.

Lemma regions_schema (d : frame) :
  schema d ->
  regions d = Returned (sorted (unique (dropna (map (cell_at c_state) (rows d))))).
Proof.
  intros H. unfold regions. rewrite series_schema by (assumption || (cbn; tauto)).
  reflexivity.
Qed.












(** ** A query that is not a pattern *)

Lemma invalid_query_raises (tbl : case_table) (d : frame) (R C : list pystr) (text : pystr) :
  schema d ->
  upper tbl (strip text) <> [] ->
  Re.compile (upper tbl (strip text)) = Re.Invalid ->
  df_filtered tbl d R C text = Raised ReError.
Proof.
  intros Hs Hne Hc. rewrite df_filtered_schema by exact Hs. unfold text_predicate, str_contains.
  destruct (upper tbl (strip text)) as [|c q]; [congruence|]. rewrite Hc. reflexivity.
Qed.

(** C3 names a query the pipeline fails on: with the example table, every
    region selected and no city, the query "(" makes [str.contains] raise
    [re.error] (missing closing parenthesis) instead of returning a frame. *)
Theorem open_paren_query_raises :
  exists full,
    regions example_table = Returned full
    /\ full = [py "Chile-RM"; py "Chile-V"]
    /\ Re.compile (upper latin1_table (strip (py "("))) = Re.Invalid
    /\ df_filtered latin1_table example_table full [] (py "(") = Raised ReError.
Proof.
  eexists. split; [vm_compute; reflexivity|]. split; [reflexivity|].
  split; vm_compute; reflexivity.
Qed.

(** ** Export *)

Lemma missing_cols_schema (d : frame) : schema d -> missing_cols d = [].
Proof.
  intros H. unfold missing_cols, columns_to_show. cbn [filter].
  rewrite !H by (cbn; tauto). reflexivity.
Qed.

Lemma add_missing_schema (d : frame) : schema d -> add_missing d = d.
Proof. intros H. unfold add_missing. rewrite missing_cols_schema by exact H. reflexivity. Qed.

Lemma setitem_columns (c : pystr) (v : cell) (d : frame) (k : pystr) :
  mem k (columns (setitem c v d)) = mem k (columns d) || str_eqb k c.
Proof.
  unfold setitem. destruct (mem c (columns d)) eqn:E; cbn [columns].
  - destruct (str_eqb k c) eqn:Ek; [|rewrite orb_false_r; reflexivity].
    apply str_eqb_eq in Ek. subst. rewrite E. reflexivity.
  - rewrite mem_app. cbn [mem existsb]. rewrite orb_false_r. reflexivity.
Qed.

Lemma setitem_rows (c : pystr) (v : cell) (d : frame) :
  List.length (rows (setitem c v d)) = List.length (rows d).
Proof. unfold setitem. destruct (mem c (columns d)); cbn [rows]; apply length_map. Qed.

Lemma fold_setitem_columns (l : list pystr) (d : frame) (k : pystr) :
  mem k (columns (fold_left (fun d c => setitem c CNone d) l d))
  = mem k (columns d) || mem k l.
Proof.
  revert d; induction l as [|c l IH]; intros d; cbn [fold_left].
  - cbn. rewrite orb_false_r. reflexivity.
  - rewrite IH, setitem_columns. cbn [mem existsb]. rewrite orb_assoc. reflexivity.
Qed.

Lemma fold_setitem_rows (l : list pystr) (d : frame) :
  List.length (rows (fold_left (fun d c => setitem c CNone d) l d)) = List.length (rows d).
Proof.
  revert d; induction l as [|c l IH]; intros d; cbn [fold_left]; [reflexivity|].
  rewrite IH. apply setitem_rows.
Qed.

(** Whatever the frame, the download has a header with the seven display
    columns in it and one record per row. *)
Lemma download_shape (d : frame) :
  exists body,
    download d = columns (add_missing d) :: body
    /\ (forall c, In c columns_to_show -> In c (columns (add_missing d)))
    /\ List.length body = List.length (rows d)
    /\ Forall (fun line => List.length line = List.length (columns (add_missing d))) body.
Proof.
  unfold download, to_csv_bytes, to_csv. eexists. split; [reflexivity|]. split; [|split].
  - intros c Hc. apply mem_In. unfold add_missing. rewrite fold_setitem_columns.
    destruct (mem c (columns d)) eqn:E; [reflexivity|]. cbn [orb].
    apply mem_In. unfold missing_cols. apply filter_In. split; [exact Hc|]. rewrite E. reflexivity.
  - rewrite length_map. unfold add_missing. apply fold_setitem_rows.
  - apply Forall_forall. intros line Hl. apply in_map_iff in Hl. destruct Hl as [r [<- _]].
    apply length_map.
Qed.

Lemma normalized_columns (tbl : case_table) (results : list record) :
  columns (normalized tbl results)
  = payload_columns results ++ added expected_columns (payload_columns results).
Proof.
  unfold normalized, prepared. cbn [columns]. rewrite ensure_fold. reflexivity.
Qed.

Definition api_like_records : list record :=
  [ [(py "id", JStr (py "7300001")); (c_callsign, JStr (py "ce3abc"));
     (c_state, JStr (py "Chile-RM"))] ].

(** C2, as stated, fails: for the payload below the header of the download
    is the frame's column list, with the extra [id] column and in the
    payload's order, not the seven display columns in display order. *)
Lemma csv_header_is_not_display_columns :
  exists df d,
    fetch_data latin1_table API_URL (ok_reply api_like_records) = Returned (mkfetched df [])
    /\ df_filtered latin1_table df [py "Chile-RM"] [] [] = Returned d
    /\ hd [] (download d)
       = [py "id"; c_callsign; c_state; c_city; c_radio_id; c_fname; c_lname; c_last_seen]
    /\ hd [] (download d) <> columns_to_show
    /\ List.length (download d) = 2.
Proof.
  do 2 eexists. split; [vm_compute; reflexivity|]. split; [vm_compute; reflexivity|].
  split; [vm_compute; reflexivity|]. split; [vm_compute; discriminate | reflexivity].
Qed.

(** C2, amended: for every filtered table of a fetched payload the download
    is a header followed by one record per filtered row, each as long as the
    header; the header is the frame's column list, that is the payload's keys
    in order of first appearance followed by the expected columns the
    payload lacks, so it contains the seven display columns; a filtered
    table without rows gives the header alone. *)
Theorem csv_header_and_rows (tbl : case_table) (url : pystr) (st : N) (rs : pystr)
    (res : option (list record)) (df d : frame) (R C : list pystr) (text : pystr) :
  passes st = true ->
  fetch_data tbl url (Requests.Response st rs (Requests.Decoded (Requests.JObject res)))
  = Returned (mkfetched df []) ->
  df_filtered tbl df R C text = Returned d ->
  exists body,
    download d
    = (payload_columns (results_of res)
       ++ added expected_columns (payload_columns (results_of res))) :: body
    /\ (forall c, In c columns_to_show ->
          In c (payload_columns (results_of res)
                ++ added expected_columns (payload_columns (results_of res))))
    /\ List.length body = List.length (rows d)
    /\ Forall (fun line =>
                 List.length line
                 = List.length (payload_columns (results_of res)
                           ++ added expected_columns (payload_columns (results_of res)))) body
    /\ (rows d = [] -> body = []).
Proof.
  intros Hst Hf Hd. rewrite fetch_data_records in Hf by exact Hst.
  injection Hf as <-. apply df_filtered_selection in Hd. destruct Hd as [m ->].
  assert (Hs : schema (select m (normalized tbl (results_of res))))
    by apply schema_select, normalized_schema.
  destruct (download_shape (select m (normalized tbl (results_of res))))
    as [body [E [Hc [Hl Hall]]]].
  rewrite add_missing_schema in E, Hc, Hall by exact Hs.
  assert (Ec : columns (select m (normalized tbl (results_of res)))
               = payload_columns (results_of res)
                 ++ added expected_columns (payload_columns (results_of res)))
    by (unfold select; cbn [columns]; apply normalized_columns).
  rewrite Ec in E, Hc, Hall.
  exists body. split; [exact E|]. split; [exact Hc|]. split; [exact Hl|].
  split; [exact Hall|].
  intros Hr. rewrite Hr in Hl.
  destruct body; [reflexivity | discriminate].
Qed.

Lemma csv_header_and_rows_witness :
  passes 200 = true
  /\ fetch_data latin1_table API_URL (ok_reply example_records)
     = Returned (mkfetched example_table [])
  /\ df_filtered latin1_table example_table [py "Chile-RM"] [] (py "zzz")
     = Returned (select (fun _ => false) example_table)
  /\ rows (select (fun _ => false) example_table) = []
  /\ download (select (fun _ => false) example_table)
     = [payload_columns example_records
        ++ added expected_columns (payload_columns example_records)].
Proof.
  assert (F : df_filtered latin1_table example_table [py "Chile-RM"] [] (py "zzz")
              = Returned (select (fun _ => false) example_table))
    by (vm_compute; reflexivity).
  assert (E : rows (select (fun _ => false) example_table) = []) by reflexivity.
  split; [reflexivity|]. split; [exact example_table_fetched|]. split; [exact F|].
  split; [exact E|].
  destruct (csv_header_and_rows latin1_table API_URL 200 (py "OK") (Some example_records)
              [py "Chile-RM"] [] (py "zzz") eq_refl example_table_fetched F)
    as [body [D [_ [_ [_ B]]]]].
  rewrite (B E) in D. exact D.
Defined.

(** ** Counts per region *)

(** How many rows hold the string [k] under state. *)
Definition occurrences (k : pystr) (d : frame) : nat :=
  List.length (filter (fun r => match cell_at c_state r with
                                | CStr s => str_eqb k s
                                | _ => false
                                end) (rows d)).

Lemma count_dropna (k : pystr) (d : frame) :
  count k (dropna (map (cell_at c_state) (rows d))) = occurrences k d.
Proof.
  unfold occurrences. induction (rows d) as [|r rs IH]; [reflexivity|].
  cbn [map dropna filter]. destruct (cell_at c_state r) as [| |s]; try exact IH.
  cbn [count]. destruct (str_eqb k s); cbn [List.length]; rewrite IH; reflexivity.
Qed.

Lemma Sorted_weaken (A : Type) (P Q : A -> A -> Prop) (l : list A) :
  (forall x y, P x y -> Q x y) -> Sorted P l -> Sorted Q l.
Proof.
  intros H. induction 1 as [|x l Hs IH Hh]; constructor; [assumption|].
  destruct Hh; constructor. apply H. assumption.
Qed.

Lemma count_geb_total (a b : pystr * nat) : count_geb a b = false -> count_geb b a = true.
Proof.
  unfold count_geb. intros H. apply Nat.leb_gt in H. apply Nat.leb_le. lia.
Qed.

Lemma sort_counts_desc_perm (t : list (pystr * nat)) : Permutation t (sort_counts_desc t).
Proof. apply sort_perm. Qed.

Lemma sort_counts_desc_sorted (t : list (pystr * nat)) :
  Sorted (fun a b => snd b <= snd a) (sort_counts_desc t).
Proof.
  apply Sorted_weaken with (P := le_of count_geb).
  - intros x y H. apply Nat.leb_le. exact H.
  - apply (@sort_sorted _ count_geb count_geb_total).
Qed.

Lemma counts_region_value (d : frame) :
  mem c_state (columns d) = true ->
  counts_region d
  = Returned (sort_counts_desc (value_counts (map (cell_at c_state) (rows d)))).
Proof. intros H. unfold counts_region, series. rewrite H. reflexivity. Qed.

(** C9: on a frame with a state column, [counts_region] lists each distinct
    state string once, with the number of rows that hold it, larger counts
    first; a frame without rows gives the empty list. *)
Theorem counts_by_region (d : frame) :
  mem c_state (columns d) = true ->
  exists t,
    counts_region d = Returned t
    /\ NoDup (map fst t)
    /\ (forall k n, In (k, n) t <-> 0 < n /\ n = occurrences k d)
    /\ Sorted (fun a b => snd b <= snd a) t
    /\ (rows d = [] -> t = []).
Proof.
  intros Hc. eexists. split; [apply counts_region_value, Hc|].
  set (xs := dropna (map (cell_at c_state) (rows d))).
  set (tally := map (fun k => (k, count k xs)) (unique xs)).
  assert (P : Permutation tally (sort_counts_desc (value_counts (map (cell_at c_state) (rows d))))).
  { unfold value_counts. fold xs. fold tally.
    etransitivity; [apply sort_counts_desc_perm|]. apply sort_counts_desc_perm. }
  split; [|split; [|split]].
  - apply (Permutation_NoDup (Permutation_map fst P)).
    unfold tally. rewrite map_map. cbn [fst]. rewrite map_id. apply unique_NoDup.
  - intros k n. split.
    + intros H. apply (Permutation_in _ (Permutation_sym P)) in H.
      unfold tally in H. apply in_map_iff in H. destruct H as [k' [E Hk]].
      injection E as -> <-. apply (proj1 (unique_In _ _)) in Hk.
      unfold xs in *. rewrite <- count_dropna. split; [apply count_pos, Hk | reflexivity].
    + intros [Hn ->]. apply (Permutation_in _ P).
      unfold tally. apply in_map_iff. exists k. rewrite <- count_dropna in *. fold xs in Hn |- *.
      split; [reflexivity|]. apply unique_In, count_pos, Hn.
  - apply sort_counts_desc_sorted.
  - intros Hr. rewrite Hr. reflexivity.
Qed.

Definition aab_records : list record :=
  [ [(c_state, JStr (py "A"))]; [(c_state, JStr (py "A"))]; [(c_state, JStr (py "B"))] ].

(** The specification's example: A, A, B gives A: 2, then B: 1. *)
Lemma counts_example :
  counts_region (normalized latin1_table aab_records)
  = Returned [(py "A", 2); (py "B", 1)].
Proof. vm_compute. reflexivity. Qed.

Lemma counts_by_region_witness :
  mem c_state (columns (normalized latin1_table aab_records)) = true
  /\ exists t,
       counts_region (normalized latin1_table aab_records) = Returned t
       /\ NoDup (map fst t)
       /\ (forall k n, In (k, n) t
                       <-> 0 < n /\ n = occurrences k (normalized latin1_table aab_records))
       /\ Sorted (fun a b => snd b <= snd a) t
       /\ (rows (normalized latin1_table aab_records) = [] -> t = []).
Proof.
  split; [reflexivity|].
  exact (counts_by_region (normalized latin1_table aab_records) eq_refl).
Defined.

(** ** Null callsigns and names as text *)

Lemma lookup_Some_In (A : Type) (c : pystr) (d : list (pystr * A)) :
  lookup c d <> None -> In c (map fst d).
Proof.
  induction d as [|[k v] d IH]; cbn [lookup map fst In]; [congruence|].
  destruct (str_eqb c k) eqn:E.
  - apply str_eqb_eq in E. auto.
  - auto.
Qed.

Lemma present_column (results : list record) (c : pystr) :
  (exists d, In d results /\ lookup c d <> None) -> mem c (payload_columns results) = true.
Proof.
  intros [d [Hd Hl]]. apply mem_In. unfold payload_columns. apply unique_In.
  apply in_flat_map. exists d. split; [exact Hd | apply lookup_Some_In, Hl].
Qed.

Lemma row_of_callsign (tbl : case_table) (results : list record) (d : record) :
  In d results ->
  cell_at c_callsign (row_of tbl results d)
  = CStr (upper tbl (str_of (built_cell results d c_callsign))).
Proof.
  intros Hd. unfold row_of.
  rewrite normalize_row_callsign by (apply built_row_binds; [exact Hd | cbn; tauto]).
  rewrite cell_at_built_row by (cbn; tauto). reflexivity.
Qed.

Lemma upper_query_none (tbl : case_table) :
  ascii_case tbl -> upper tbl (strip (py "none")) = py "NONE".
Proof.
  intros Ht. change (strip (py "none")) with (py "none").
  rewrite upper_ascii; [reflexivity | exact Ht | repeat constructor].
Qed.

Lemma upper_query_nan (tbl : case_table) :
  ascii_case tbl -> upper tbl (strip (py "nan")) = py "NAN".
Proof.
  intros Ht. change (strip (py "nan")) with (py "nan").
  rewrite upper_ascii; [reflexivity | exact Ht | repeat constructor].
Qed.

Lemma none_query_keeps_None_names (tbl : case_table) (T : frame) (r : row) :
  ascii_case tbl -> schema T -> In r (rows T) ->
  cell_at c_fname r = CNone \/ cell_at c_lname r = CNone ->
  exists T', text_stage tbl (py "none") T = Returned T' /\ In r (rows T').
Proof.
  intros Ht Hs Hr Hn. eexists. split.
  - apply text_stage_plain; [exact Hs | |]; rewrite upper_query_none by exact Ht;
      [discriminate | reflexivity].
  - rewrite upper_query_none by exact Ht. unfold select. cbn [rows].
    apply filter_In. split; [exact Hr|]. unfold plain_hits.
    destruct Hn as [-> | ->]; cbn [str_of]; rewrite upper_None by exact Ht;
      change (occurs (py "NONE") (py "NONE")) with true;
      rewrite ?orb_true_r; reflexivity.
Qed.

Lemma nan_query_keeps_nan_names (tbl : case_table) (T : frame) (r : row) :
  ascii_case tbl -> schema T -> In r (rows T) ->
  cell_at c_fname r = CNaN \/ cell_at c_lname r = CNaN ->
  exists T', text_stage tbl (py "nan") T = Returned T' /\ In r (rows T').
Proof.
  intros Ht Hs Hr Hn. eexists. split.
  - apply text_stage_plain; [exact Hs | |]; rewrite upper_query_nan by exact Ht;
      [discriminate | reflexivity].
  - rewrite upper_query_nan by exact Ht. unfold select. cbn [rows].
    apply filter_In. split; [exact Hr|]. unfold plain_hits.
    destruct Hn as [-> | ->]; cbn [str_of]; rewrite upper_nan by exact Ht;
      change (occurs (py "NAN") (py "NAN")) with true;
      rewrite ?orb_true_r; reflexivity.
Qed.

Definition mixed_records : list record :=
  [ [(c_callsign, JStr (py "ce3abc"))]; [(c_fname, JStr (py "Ana"))] ].

(** C10, as stated, fails: the second record below has no callsign key
    while the first has one, so pandas fills the gap with [nan], and the
    normalized callsign is the text "NAN", not "NONE". *)
Lemma missing_callsign_reads_NAN :
  exists df,
    fetch_data latin1_table API_URL (ok_reply mixed_records) = Returned (mkfetched df [])
    /\ lookup c_callsign (nth 1 mixed_records []) = None
    /\ map (cell_at c_callsign) (rows df) = [CStr (py "CE3ABC"); CStr (py "NAN")].
Proof.
  eexists. split; [vm_compute; reflexivity|]. split; reflexivity.
Qed.

(** C10, amended: after a successful fetch, with a case table that is
    CPython's on ASCII, the row of a record has the callsign text "NONE"
    when no record of the payload has a callsign key, or when the record's
    callsign is null and the column is not inferred as float (some record
    holds a string there or no record lacks the key); it has "NAN" when the
    record lacks the key and another record has it.  In the text filter a
    name cell that is [None] is read as "NONE" and one that is [nan] as
    "NAN": the query "none" keeps the rows of the first kind, "nan" those
    of the second. *)
Theorem null_callsign_and_names_as_text (tbl : case_table) (url : pystr) (st : N)
    (rs : pystr) (res : option (list record)) :
  ascii_case tbl ->
  passes st = true ->
  exists df,
    fetch_data tbl url (Requests.Response st rs (Requests.Decoded (Requests.JObject res)))
    = Returned (mkfetched df [])
    /\ Permutation (rows df) (map (row_of tbl (results_of res)) (results_of res))
    /\ (forall d, In d (results_of res) -> absent c_callsign (results_of res) ->
          cell_at c_callsign (row_of tbl (results_of res) d) = CStr (py "NONE"))
    /\ (forall d, In d (results_of res) -> lookup c_callsign d = Some JNull ->
          no_text c_callsign (results_of res) && some_missing c_callsign (results_of res) = false ->
          cell_at c_callsign (row_of tbl (results_of res) d) = CStr (py "NONE"))
    /\ (forall d, In d (results_of res) -> lookup c_callsign d = None ->
          (exists d', In d' (results_of res) /\ lookup c_callsign d' <> None) ->
          cell_at c_callsign (row_of tbl (results_of res) d) = CStr (py "NAN"))
    /\ (forall T r, schema T -> In r (rows T) ->
          cell_at c_fname r = CNone \/ cell_at c_lname r = CNone ->
          exists T', text_stage tbl (py "none") T = Returned T' /\ In r (rows T'))
    /\ (forall T r, schema T -> In r (rows T) ->
          cell_at c_fname r = CNaN \/ cell_at c_lname r = CNaN ->
          exists T', text_stage tbl (py "nan") T = Returned T' /\ In r (rows T')).
Proof.
  intros Ht Hst. exists (normalized tbl (results_of res)).
  split; [apply fetch_data_records, Hst|].
  set (results := results_of res).
  split; [apply normalized_perm|].
  split; [|split; [|split; [|split]]].
  - intros d Hd Ha. rewrite row_of_callsign by exact Hd.
    unfold built_cell. rewrite (absent_column results c_callsign Ha).
    cbn [str_of]. rewrite upper_None by exact Ht. reflexivity.
  - intros d Hd Hn Hf. rewrite row_of_callsign by exact Hd.
    unfold built_cell.
    rewrite present_column by (exists d; split; [exact Hd | rewrite Hn; discriminate]).
    rewrite Hf, Hn. cbn [cell_of str_of]. rewrite upper_None by exact Ht. reflexivity.
  - intros d Hd Hn Hp. rewrite row_of_callsign by exact Hd.
    unfold built_cell. rewrite present_column by exact Hp. rewrite Hn. cbn [cell_of].
    destruct (no_text c_callsign results && some_missing c_callsign results);
      cbn [str_of]; rewrite upper_nan by exact Ht; reflexivity.
  - intros T r Hs Hr Hn. apply none_query_keeps_None_names; assumption.
  - intros T r Hs Hr Hn. apply nan_query_keeps_nan_names; assumption.
Qed.

Lemma null_callsign_and_names_as_text_witness :
  ascii_case latin1_table
  /\ passes 200 = true
  /\ exists df,
       fetch_data latin1_table API_URL
         (Requests.Response 200 (py "OK") (Requests.Decoded (Requests.JObject (Some mixed_records))))
       = Returned (mkfetched df [])
       /\ Permutation (rows df) (map (row_of latin1_table mixed_records) mixed_records)
       /\ (forall d, In d mixed_records -> absent c_callsign mixed_records ->
             cell_at c_callsign (row_of latin1_table mixed_records d) = CStr (py "NONE"))
       /\ (forall d, In d mixed_records -> lookup c_callsign d = Some JNull ->
             no_text c_callsign mixed_records && some_missing c_callsign mixed_records = false ->
             cell_at c_callsign (row_of latin1_table mixed_records d) = CStr (py "NONE"))
       /\ (forall d, In d mixed_records -> lookup c_callsign d = None ->
             (exists d', In d' mixed_records /\ lookup c_callsign d' <> None) ->
             cell_at c_callsign (row_of latin1_table mixed_records d) = CStr (py "NAN"))
       /\ (forall T r, schema T -> In r (rows T) ->
             cell_at c_fname r = CNone \/ cell_at c_lname r = CNone ->
             exists T', text_stage latin1_table (py "none") T = Returned T' /\ In r (rows T'))
       /\ (forall T r, schema T -> In r (rows T) ->
             cell_at c_fname r = CNaN \/ cell_at c_lname r = CNaN ->
             exists T', text_stage latin1_table (py "nan") T = Returned T' /\ In r (rows T')).
Proof.
  split; [exact latin1_ascii_case|]. split; [reflexivity|].
  exact (null_callsign_and_names_as_text API_URL 200 (py "OK") (Some mixed_records)
           latin1_ascii_case eq_refl).
Defined.

(** ** The specification's worked examples *)

(** Normalization of the example payload: callsigns uppercased, Chile-RM
    before Chile-V. *)
Lemma example_normalization :
  map (fun r => (cell_at c_state r, cell_at c_callsign r)) (rows example_table)
  = [(CStr (py "Chile-RM"), CStr (py "CE3ABC")); (CStr (py "Chile-V"), CStr (py "CE4XYZ"))].
Proof. vm_compute. reflexivity. Qed.

(** A query with a special character is read as a pattern: "C.4" occurs in
    no field of the example table, and the CE4XYZ row is kept. *)
Lemma dot_query_is_a_pattern :
  rows (text_filter_as_specified latin1_table (py "C.4") example_table) = []
  /\ exists d, text_stage latin1_table (py "C.4") example_table = Returned d
               /\ map (cell_at c_callsign) (rows d) = [CStr (py "CE4XYZ")].
Proof.
  split; [vm_compute; reflexivity|]. eexists; split; vm_compute; reflexivity.
Qed.

(** The frame of a failed fetch has no columns at all: were it to reach
    line 88, as it can after a refresh that fails, the region stage would
    raise [KeyError]. *)
Lemma failed_refresh_reaches_the_filters :
  load latin1_table API_URL (ok_reply example_records) (Some (Requests.TimedOut []))
  = Returned (Loaded empty_frame [py "Error consultando la API: "])
  /\ region_stage [] empty_frame = Raised (KeyError c_state).
Proof. split; vm_compute; reflexivity. Qed.

(** The second sort of line 147 finds the counts already in order. *)
Lemma counts_already_sorted (s : list cell) :
  sort_counts_desc (value_counts s) = value_counts s.
Proof.
  unfold sort_counts_desc at 1. apply sort_of_sorted.
  unfold value_counts, sort_counts_desc. apply (@sort_sorted _ count_geb count_geb_total).
Qed.

(** A null callsign next to a string one stays [None] and reads "NONE"; next
    to a record without the key, and no string in the column, the column is
    float and both read "NAN". *)
Lemma null_callsign_examples :
  map (cell_at c_callsign)
    (rows (normalized latin1_table
             [ [(c_callsign, JNull)]; [(c_callsign, JStr (py "ce3abc"))] ]))
  = [CStr (py "CE3ABC"); CStr (py "NONE")]
  /\ map (cell_at c_callsign)
       (rows (normalized latin1_table [ [(c_callsign, JNull)]; [(c_fname, JStr (py "Ana"))] ]))
     = [CStr (py "NAN"); CStr (py "NAN")].
Proof. split; vm_compute; reflexivity. Qed.

(* ================================================================== *)
(** * Further properties of the script *)
(* ================================================================== *)

(** ** What [fetch_data] can do *)

Lemma raise_for_status_fails (url : pystr) (r : Requests.response) :
  passes (Requests.status_code r) = false ->
  exists msg, Requests.raise_for_status url r = Raised (RequestException HTTPError msg).
Proof.
  unfold passes, Requests.raise_for_status. intros H. apply negb_false_iff in H.
  destruct ((400 <=? Requests.status_code r) && (Requests.status_code r <? 500))%N eqn:E4;
    [eexists; reflexivity|].
  destruct ((500 <=? Requests.status_code r) && (Requests.status_code r <? 600))%N eqn:E5;
    [eexists; reflexivity|].
  exfalso. apply andb_true_iff in H. destruct H as [A B].
  apply N.leb_le in A. apply N.ltb_lt in B.
  apply andb_false_iff in E4. apply andb_false_iff in E5.
  destruct E4 as [E4|E4]; [apply N.leb_gt in E4 | apply N.ltb_ge in E4];
    destruct E5 as [E5|E5]; [apply N.leb_gt in E5 | apply N.ltb_ge in E5
                            | apply N.leb_gt in E5 | apply N.ltb_ge in E5]; lia.
Qed.

(** ** One row per record *)

Lemma normalized_length (tbl : case_table) (results : list record) :
  List.length (rows (normalized tbl results)) = List.length results.
Proof.
  rewrite (Permutation_length (normalized_perm tbl results)). apply length_map.
Qed.

Lemma normalized_is_empty (tbl : case_table) (results : list record) :
  is_empty (normalized tbl results) = match results with [] => true | _ :: _ => false end.
Proof.
  unfold is_empty.
  assert (Hs : mem c_state (columns (normalized tbl results)) = true)
    by (apply normalized_schema; cbn; tauto).
  destruct (columns (normalized tbl results)) as [|c cs] eqn:Ec.
  - discriminate Hs.
  - pose proof (normalized_length tbl results) as Hl.
    destruct (rows (normalized tbl results)), results; try reflexivity; discriminate Hl.
Qed.

(** X2: a successful fetch gives one row per record of the payload, and the
    frame is empty ([df.empty]) exactly when the payload has no record. *)
Theorem fetch_row_per_record (tbl : case_table) (url : pystr) (st : N) (rs : pystr)
    (res : option (list record)) :
  passes st = true ->
  exists df,
    fetch_data tbl url (Requests.Response st rs (Requests.Decoded (Requests.JObject res)))
    = Returned (mkfetched df [])
    /\ List.length (rows df) = List.length (results_of res)
    /\ (is_empty df = true <-> results_of res = []).
Proof.
  intros Hst. exists (normalized tbl (results_of res)).
  split; [apply fetch_data_records, Hst|]. split; [apply normalized_length|].
  rewrite normalized_is_empty. destruct (results_of res); split; congruence.
Qed.

Lemma fetch_row_per_record_witness :
  passes 200 = true
  /\ exists df,
       fetch_data latin1_table API_URL
         (Requests.Response 200 (py "OK") (Requests.Decoded (Requests.JObject (Some two_records))))
       = Returned (mkfetched df [])
       /\ List.length (rows df) = List.length two_records
       /\ (is_empty df = true <-> two_records = []).
Proof.
  split; [reflexivity|].
  exact (fetch_row_per_record latin1_table API_URL 200 (py "OK") (Some two_records) eq_refl).
Defined.

(** ** Text fields after normalization *)

Lemma no_text_false (results : list record) (d : record) (c s : pystr) :
  In d results -> lookup c d = Some (JStr s) -> no_text c results = false.
Proof.
  intros Hd Hl. unfold no_text.
  destruct (forallb (fun d0 => isna (cell_of (lookup c d0))) results) eqn:E; [|reflexivity].
  rewrite forallb_forall in E. specialize (E d Hd). rewrite Hl in E. discriminate E.
Qed.

Lemma built_cell_text (results : list record) (d : record) (c s : pystr) :
  In d results -> lookup c d = Some (JStr s) -> built_cell results d c = CStr s.
Proof.
  intros Hd Hl. unfold built_cell.
  rewrite present_column by (exists d; split; [exact Hd | rewrite Hl; discriminate]).
  rewrite (no_text_false results d c Hd Hl), Hl. reflexivity.
Qed.

(** X3: in the row of a record, a string state or city is stripped, a
    string callsign is uppercased, and a string radio_id, fname, lname or
    last_seen is carried over unchanged. *)
Theorem text_fields_normalized (tbl : case_table) (url : pystr) (st : N) (rs : pystr)
    (res : option (list record)) (d : record) (s : pystr) :
  passes st = true ->
  In d (results_of res) ->
  exists df,
    fetch_data tbl url (Requests.Response st rs (Requests.Decoded (Requests.JObject res)))
    = Returned (mkfetched df [])
    /\ In (row_of tbl (results_of res) d) (rows df)
    /\ (lookup c_state d = Some (JStr s) ->
        cell_at c_state (row_of tbl (results_of res) d) = CStr (strip s))
    /\ (lookup c_city d = Some (JStr s) ->
        cell_at c_city (row_of tbl (results_of res) d) = CStr (strip s))
    /\ (lookup c_callsign d = Some (JStr s) ->
        cell_at c_callsign (row_of tbl (results_of res) d) = CStr (upper tbl s))
    /\ (forall c, In c [c_radio_id; c_fname; c_lname; c_last_seen] ->
        lookup c d = Some (JStr s) ->
        cell_at c (row_of tbl (results_of res) d) = CStr s).
Proof.
  intros Hst Hd. exists (normalized tbl (results_of res)).
  split; [apply fetch_data_records, Hst|].
  set (results := results_of res) in *.
  split.
  { apply (Permutation_in _ (Permutation_sym (normalized_perm tbl results))).
    apply in_map, Hd. }
  split; [|split; [|split]].
  - intros Hl. unfold row_of.
    rewrite normalize_row_state by (apply built_row_binds; [exact Hd | cbn; tauto]).
    rewrite cell_at_built_row by (cbn; tauto).
    rewrite (built_cell_text results d c_state Hd Hl). reflexivity.
  - intros Hl. unfold row_of.
    rewrite normalize_row_city by (apply built_row_binds; [exact Hd | cbn; tauto]).
    rewrite cell_at_built_row by (cbn; tauto).
    rewrite (built_cell_text results d c_city Hd Hl). reflexivity.
  - intros Hl. rewrite row_of_callsign by exact Hd.
    rewrite (built_cell_text results d c_callsign Hd Hl). reflexivity.
  - intros c Hc Hl. unfold row_of. cbn [In] in Hc.
    destruct Hc as [<-|[<-|[<-|[<-|[]]]]];
      (rewrite normalize_row_other by reflexivity;
       rewrite cell_at_built_row by (cbn; tauto);
       apply built_cell_text; assumption).
Qed.

Definition padded_record : record :=
  [(c_state, JStr (py " Chile-RM ")); (c_city, JStr (py "Santiago "));
   (c_callsign, JStr (py "ce3abc")); (c_fname, JStr (py "Ana"))].

Lemma text_fields_normalized_witness :
  passes 200 = true
  /\ In padded_record [padded_record]
  /\ exists df,
       fetch_data latin1_table API_URL
         (Requests.Response 200 (py "OK")
            (Requests.Decoded (Requests.JObject (Some [padded_record]))))
       = Returned (mkfetched df [])
       /\ In (row_of latin1_table [padded_record] padded_record) (rows df)
       /\ cell_at c_state (row_of latin1_table [padded_record] padded_record)
          = CStr (py "Chile-RM").
Proof.
  assert (H : In padded_record [padded_record]) by (left; reflexivity).
  split; [reflexivity|]. split; [exact H|].
  destruct (text_fields_normalized latin1_table API_URL 200 (py "OK")
              (Some [padded_record]) padded_record (py " Chile-RM ") eq_refl H)
    as [df [F [I [S _]]]].
  exists df. split; [exact F|]. split; [exact I|]. exact (S eq_refl).
Defined.

(** ** No padding around state and city *)

Lemma lstrip_head (s t : pystr) (c : N) : lstrip s = c :: t -> is_space c = false.
Proof.
  induction s as [|x s IH]; cbn [lstrip]; [discriminate|].
  destruct (is_space x) eqn:E; [exact IH|]. intros H. injection H as <- _. exact E.
Qed.

Lemma lstrip_fixed (c : N) (s : pystr) : is_space c = false -> lstrip (c :: s) = c :: s.
Proof. intros H. cbn [lstrip]. rewrite H. reflexivity. Qed.

Lemma lstrip_idem (s : pystr) : lstrip (lstrip s) = lstrip s.
Proof.
  destruct (lstrip s) as [|c t] eqn:E; [reflexivity|].
  apply lstrip_fixed. eapply lstrip_head, E.
Qed.

Lemma lstrip_snoc (l : pystr) (c : N) :
  is_space c = false -> exists m, lstrip (l ++ [c]) = m ++ [c].
Proof.
  intros H. induction l as [|x l IH]; cbn [app lstrip].
  - rewrite H. exists []. reflexivity.
  - destruct (is_space x); [exact IH|]. exists (x :: l). reflexivity.
Qed.

Lemma rstrip_idem (s : pystr) : rstrip (rstrip s) = rstrip s.
Proof. unfold rstrip. rewrite rev_involutive, lstrip_idem. reflexivity. Qed.

Lemma rstrip_keeps_head (c : N) (t : pystr) :
  is_space c = false -> exists m, rstrip (c :: t) = c :: m.
Proof.
  intros H. unfold rstrip. cbn [rev].
  destruct (@lstrip_snoc (rev t) c H) as [m E]. rewrite E, rev_app_distr.
  exists (rev m). reflexivity.
Qed.

Lemma strip_idem (s : pystr) : strip (strip s) = strip s.
Proof.
  unfold strip. destruct (lstrip s) as [|c t] eqn:E; [reflexivity|].
  pose proof (@lstrip_head s t c E) as Hc.
  destruct (@rstrip_keeps_head c t Hc) as [m Em].
  rewrite Em, (@lstrip_fixed c m Hc), <- Em. apply rstrip_idem.
Qed.

(** A string without white space at either end. *)
Definition trimmed (s : pystr) : Prop :=
  strip s = s
  /\ (forall c, hd_error s = Some c -> is_space c = false)
  /\ (forall c, hd_error (rev s) = Some c -> is_space c = false).

Lemma strip_trimmed (s : pystr) : trimmed (strip s).
Proof.
  split; [apply strip_idem|]. split.
  - intros c Hc. unfold strip in Hc. destruct (lstrip s) as [|x t] eqn:E; [discriminate Hc|].
    pose proof (@lstrip_head s t x E) as Hx.
    destruct (@rstrip_keeps_head x t Hx) as [m Em]. rewrite Em in Hc.
    injection Hc as <-. exact Hx.
  - intros c Hc. unfold strip, rstrip in Hc. rewrite rev_involutive in Hc.
    destruct (lstrip (rev (lstrip s))) as [|x t] eqn:E; [discriminate Hc|].
    injection Hc as <-. eapply lstrip_head, E.
Qed.

(** X4: in every row of a fetched frame the state and the city are strings
    with no white space at either end, fixed by a further [strip]. *)
Theorem state_and_city_trimmed (tbl : case_table) (url : pystr) (st : N) (rs : pystr)
    (res : option (list record)) :
  passes st = true ->
  exists df,
    fetch_data tbl url (Requests.Response st rs (Requests.Decoded (Requests.JObject res)))
    = Returned (mkfetched df [])
    /\ forall r, In r (rows df) ->
         exists s c, cell_at c_state r = CStr s /\ trimmed s
                     /\ cell_at c_city r = CStr c /\ trimmed c.
Proof.
  intros Hst. exists (normalized tbl (results_of res)).
  split; [apply fetch_data_records, Hst|].
  intros r Hr. apply row_of_in in Hr. destruct Hr as [d [Hd ->]].
  unfold row_of. do 2 eexists.
  split; [apply normalize_row_state, built_row_binds; [exact Hd | cbn; tauto]|].
  split; [apply strip_trimmed|].
  split; [apply normalize_row_city, built_row_binds; [exact Hd | cbn; tauto]|].
  apply strip_trimmed.
Qed.

Lemma state_and_city_trimmed_witness :
  passes 200 = true
  /\ exists df,
       fetch_data latin1_table API_URL
         (Requests.Response 200 (py "OK")
            (Requests.Decoded (Requests.JObject (Some [padded_record]))))
       = Returned (mkfetched df [])
       /\ forall r, In r (rows df) ->
            exists s c, cell_at c_state r = CStr s /\ trimmed s
                        /\ cell_at c_city r = CStr c /\ trimmed c.
Proof.
  split; [reflexivity|].
  exact (state_and_city_trimmed latin1_table API_URL 200 (py "OK")
           (Some [padded_record]) eq_refl).
Defined.

(** ** The page after lines 58-68 *)

Definition no_data_message : pystr :=
  py "No se pudieron cargar datos. Intenta nuevamente con 'Actualizar'.".

Lemma fetch_data_handled (tbl : case_table) (url : pystr) (w : Requests.reply) :
  failure_as_handled w ->
  exists e, fetch_data tbl url w
            = Returned (mkfetched empty_frame [py "Error consultando la API: " ++ e]).
Proof.
  intros H. destruct w as [msg|msg|st rs b]; try (eexists; reflexivity).
  unfold fetch_data, try_body. cbn [Requests.get bind].
  destruct (passes st) eqn:Hst.
  - destruct H as [H|[msg ->]]; [congruence|].
    rewrite raise_for_status_passes by exact Hst. eexists. reflexivity.
  - destruct (raise_for_status_fails url (Requests.mkresponse st rs b) Hst) as [msg E].
    rewrite E. eexists. reflexivity.
Qed.

(** X5: when the first fetch fails in a way the handler takes, the page
    stops with two messages, the one of the fetch and then the general
    one; a pressed refresh button is not acted on. *)
Theorem failed_fetch_stops_the_page (tbl : case_table) (url : pystr) (w : Requests.reply)
    (refresh : option Requests.reply) :
  failure_as_handled w ->
  exists e,
    load tbl url w refresh
    = Returned (Stopped [py "Error consultando la API: " ++ e; no_data_message]).
Proof.
  intros H. destruct (fetch_data_handled tbl url w H) as [e E].
  exists e. unfold load. rewrite E. reflexivity.
Qed.

Lemma failed_fetch_stops_the_page_witness :
  failure_as_handled (Requests.Response 503 (py "Service Unavailable") (Requests.Undecodable []))
  /\ exists e,
       load latin1_table API_URL
         (Requests.Response 503 (py "Service Unavailable") (Requests.Undecodable []))
         (Some (ok_reply one_record))
       = Returned (Stopped [py "Error consultando la API: " ++ e; no_data_message]).
Proof.
  assert (H : failure_as_handled
                (Requests.Response 503 (py "Service Unavailable") (Requests.Undecodable [])))
    by (left; reflexivity).
  split; [exact H|].
  exact (@failed_fetch_stops_the_page latin1_table API_URL _ (Some (ok_reply one_record)) H).
Defined.

(** X6: when the first fetch succeeds, without a refresh the page stops
    with the general message alone if the payload has no record (also when
    the results entry is missing), and otherwise goes on with the fetched
    frame and no message. *)
Theorem page_stops_on_empty_payload (tbl : case_table) (url : pystr) (st : N) (rs : pystr)
    (res : option (list record)) :
  passes st = true ->
  exists df,
    fetch_data tbl url (Requests.Response st rs (Requests.Decoded (Requests.JObject res)))
    = Returned (mkfetched df [])
    /\ load tbl url (Requests.Response st rs (Requests.Decoded (Requests.JObject res))) None
       = match results_of res with
         | [] => Returned (Stopped [no_data_message])
         | _ :: _ => Returned (Loaded df [])
         end.
Proof.
  intros Hst. exists (normalized tbl (results_of res)).
  split; [apply fetch_data_records, Hst|].
  unfold load. rewrite fetch_data_records by exact Hst. cbn [bind table reported].
  rewrite normalized_is_empty. destruct (results_of res); reflexivity.
Qed.

Lemma page_stops_on_empty_payload_witness :
  passes 200 = true
  /\ exists df,
       fetch_data latin1_table API_URL
         (Requests.Response 200 (py "OK") (Requests.Decoded (Requests.JObject None)))
       = Returned (mkfetched df [])
       /\ load latin1_table API_URL
            (Requests.Response 200 (py "OK") (Requests.Decoded (Requests.JObject None))) None
          = Returned (Stopped [no_data_message]).
Proof.
  split; [reflexivity|].
  exact (page_stops_on_empty_payload latin1_table API_URL 200 (py "OK") None eq_refl).
Defined.

Lemma df_filtered_without_state (tbl : case_table) (d : frame) (R C : list pystr)
    (text : pystr) :
  mem c_state (columns d) = false -> df_filtered tbl d R C text = Raised (KeyError c_state).
Proof.
  intros H. unfold df_filtered, region_stage, series. rewrite H. reflexivity.
Qed.

(** X7: the frame of the second fetch is not checked.  When the first
    fetch gave data and the refresh fails in a way the handler takes, the
    page goes on with the empty frame, which has no state column, and the
    filter pipeline raises [KeyError] whatever the selections and query. *)
Theorem failed_refresh_breaks_the_filters (tbl : case_table) (url : pystr) (st : N)
    (rs : pystr) (res : option (list record)) (w' : Requests.reply) (R C : list pystr)
    (text : pystr) :
  passes st = true ->
  results_of res <> [] ->
  failure_as_handled w' ->
  exists e,
    load tbl url (Requests.Response st rs (Requests.Decoded (Requests.JObject res))) (Some w')
    = Returned (Loaded empty_frame [py "Error consultando la API: " ++ e])
    /\ df_filtered tbl empty_frame R C text = Raised (KeyError c_state).
Proof.
  intros Hst Hne Hw. destruct (fetch_data_handled tbl API_URL w' Hw) as [e E].
  exists e. split; [|apply df_filtered_without_state; reflexivity].
  unfold load. rewrite fetch_data_records by exact Hst. cbn [bind table reported].
  rewrite normalized_is_empty. destruct (results_of res) as [|d ds]; [congruence|].
  rewrite E. reflexivity.
Qed.

Lemma failed_refresh_breaks_the_filters_witness :
  passes 200 = true
  /\ results_of (Some one_record) <> []
  /\ failure_as_handled (Requests.TimedOut [])
  /\ exists e,
       load latin1_table API_URL
         (Requests.Response 200 (py "OK") (Requests.Decoded (Requests.JObject (Some one_record))))
         (Some (Requests.TimedOut []))
       = Returned (Loaded empty_frame [py "Error consultando la API: " ++ e])
       /\ df_filtered latin1_table empty_frame [py "Chile-RM"] [] [] = Raised (KeyError c_state).
Proof.
  assert (N : results_of (Some one_record) <> []) by discriminate.
  split; [reflexivity|]. split; [exact N|]. split; [exact I|].
  exact (@failed_refresh_breaks_the_filters latin1_table API_URL 200 (py "OK")
           (Some one_record) (Requests.TimedOut []) [py "Chile-RM"] [] [] eq_refl N I).
Defined.

(** ** The display columns (lines 110-115 and 131-135) *)

Lemma columns_to_show_NoDup : NoDup columns_to_show.
Proof.
  unfold columns_to_show.
  repeat (constructor; [cbn [In]; intros H;
                        repeat (destruct H as [H|H]; [vm_compute in H; discriminate H|]);
                        exact H|]).
  constructor.
Qed.

Lemma missing_cols_NoDup (d : frame) : NoDup (missing_cols d).
Proof. unfold missing_cols. apply NoDup_filter, columns_to_show_NoDup. Qed.

Lemma missing_cols_fresh (d : frame) (c : pystr) :
  In c (missing_cols d) -> mem c (columns d) = false.
Proof.
  unfold missing_cols. intros H. apply filter_In in H. destruct H as [_ H].
  apply negb_true_iff in H. exact H.
Qed.

Definition nones (l : list pystr) : row := map (fun c => (c, CNone)) l.

Lemma fold_setitem_fresh (l : list pystr) (d : frame) :
  NoDup l -> (forall c, In c l -> mem c (columns d) = false) ->
  fold_left (fun d c => setitem c CNone d) l d
  = mkframe (columns d ++ l) (map (fun r => r ++ nones l) (rows d)).
Proof.
  revert d; induction l as [|c l IH]; intros [cols rs] Hn Hf; cbn [fold_left columns rows].
  - rewrite app_nil_r. f_equal. rewrite <- (map_id rs) at 1. apply map_ext.
    intros r. unfold nones. cbn [map]. rewrite app_nil_r. reflexivity.
  - inversion Hn as [|c' l' Hc Hl]; subst.
    unfold setitem at 2. cbn [columns rows] in *.
    rewrite (Hf c (or_introl eq_refl)). rewrite IH.
    + cbn [columns rows]. rewrite <- app_assoc. cbn [app]. f_equal.
      rewrite map_map. apply map_ext. intros r. unfold nones. cbn [map].
      rewrite <- app_assoc. reflexivity.
    + exact Hl.
    + intros k Hk. cbn [columns]. rewrite mem_app, (Hf k (or_intror Hk)).
      cbn [mem existsb orb]. rewrite orb_false_r. apply str_eqb_neq.
      intros ->. contradiction.
Qed.

Lemma display_in_expected (c : pystr) : In c columns_to_show -> In c expected_columns.
Proof. cbn [columns_to_show expected_columns In]. tauto. Qed.

Lemma expected_in_display (c : pystr) : In c expected_columns -> In c columns_to_show.
Proof. cbn [columns_to_show expected_columns In]. tauto. Qed.

Lemma add_missing_frame (d : frame) :
  add_missing d
  = mkframe (columns d ++ missing_cols d) (map (fun r => r ++ nones (missing_cols d)) (rows d)).
Proof.
  unfold add_missing. apply fold_setitem_fresh;
    [apply missing_cols_NoDup | apply missing_cols_fresh].
Qed.

Lemma add_missing_is_schema (d : frame) : schema (add_missing d).
Proof.
  intros c Hc. unfold add_missing. rewrite fold_setitem_columns.
  destruct (mem c (columns d)) eqn:E; [reflexivity|]. cbn [orb].
  apply mem_In. unfold missing_cols. apply filter_In.
  split; [apply expected_in_display, Hc | rewrite E; reflexivity].
Qed.

(** X8: lines 111-115 leave the columns and cells of the frame as they are
    and append, in display order, the display columns the frame lacks, each
    holding [None] in every row; afterwards no display column is missing,
    and doing it again changes nothing. *)
Theorem missing_display_columns_added (d : frame) :
  columns (add_missing d) = columns d ++ missing_cols d
  /\ rows (add_missing d) = map (fun r => r ++ nones (missing_cols d)) (rows d)
  /\ (forall c, In c columns_to_show -> In c (columns (add_missing d)))
  /\ missing_cols (add_missing d) = []
  /\ add_missing (add_missing d) = add_missing d.
Proof.
  rewrite add_missing_frame at 1 2. cbn [columns rows].
  split; [reflexivity|]. split; [reflexivity|].
  pose proof (add_missing_is_schema d) as Hs.
  split; [intros c Hc; apply mem_In, Hs, display_in_expected, Hc|].
  split; [apply missing_cols_schema, Hs | apply add_missing_schema, Hs].
Qed.

Lemma lookup_nones (l : list pystr) (c : pystr) :
  lookup c (nones l) = if mem c l then Some CNone else None.
Proof. apply lookup_const. Qed.

(** X9: the table widget gets one line of seven cells per row of the
    frame; on a frame whose rows bind its columns, the cell under a display
    column is the row's own cell when the frame has the column and [None]
    when it lacks it. *)
Theorem shown_cells (d : frame) :
  aligned d ->
  shown d
  = map (fun r => map (fun c => if mem c (columns d) then cell_at c r else CNone)
                    columns_to_show) (rows d)
  /\ List.length (shown d) = List.length (rows d)
  /\ Forall (fun line => List.length line = 7) (shown d).
Proof.
  intros Ha. unfold shown. rewrite add_missing_frame. cbn [rows]. rewrite map_map.
  split; [|split].
  - unfold aligned in Ha. rewrite Forall_forall in Ha.
    apply map_ext_in. intros r Hr. apply map_ext_in. intros c Hc.
    unfold cell_at. rewrite lookup_app.
    destruct (mem c (columns d)) eqn:E.
    + destruct (lookup c r) eqn:El; [reflexivity|].
      apply lookup_None in El. rewrite (Ha r Hr) in El. apply mem_In in E. contradiction.
    + assert (El : lookup c r = None).
      { apply lookup_None. rewrite (Ha r Hr). intros H. apply mem_In in H. congruence. }
      rewrite El, lookup_nones.
      assert (Hm : mem c (missing_cols d) = true).
      { apply mem_In. unfold missing_cols. apply filter_In. split; [exact Hc|].
        rewrite E. reflexivity. }
      rewrite Hm. reflexivity.
  - apply length_map.
  - apply Forall_forall. intros line Hl. apply in_map_iff in Hl.
    destruct Hl as [r [<- _]]. rewrite length_map. reflexivity.
Qed.

Lemma shown_cells_witness :
  aligned example_table
  /\ shown example_table
     = map (fun r => map (fun c => if mem c (columns example_table) then cell_at c r else CNone)
                       columns_to_show) (rows example_table)
  /\ List.length (shown example_table) = List.length (rows example_table)
  /\ Forall (fun line => List.length line = 7) (shown example_table).
Proof.
  assert (H : aligned example_table) by apply normalized_aligned.
  split; [exact H|]. exact (@shown_cells example_table H).
Defined.

(** ** The options offered for regions and cities (lines 84 and 91) *)

Definition str_le (x y : pystr) : Prop := leb_of str_compare x y = true.

Lemma str_leb_total (x y : pystr) :
  leb_of str_compare x y = false -> leb_of str_compare y x = true.
Proof. apply (leb_of_total ordering_str). Qed.

Lemma options_of_column (xs : list cell) :
  NoDup (sorted (unique (dropna xs)))
  /\ Sorted str_le (sorted (unique (dropna xs)))
  /\ (forall x, In x (sorted (unique (dropna xs))) <-> In (CStr x) xs).
Proof.
  split; [|split].
  - unfold sorted. eapply Permutation_NoDup; [apply sort_perm | apply unique_NoDup].
  - unfold sorted. apply (@sort_sorted _ (leb_of str_compare) str_leb_total).
  - intros x. rewrite sorted_In, unique_In, dropna_In. reflexivity.
Qed.

(** X10: on a frame with the expected columns, the region options and the
    city options each list, once and in ascending order, exactly the
    strings found under state, respectively city, in the rows of the frame
    they are computed from. *)
Theorem filter_options (d : frame) :
  schema d ->
  (exists rs, regions d = Returned rs
              /\ NoDup rs /\ Sorted str_le rs
              /\ forall x, In x rs <-> exists r, In r (rows d) /\ cell_at c_state r = CStr x)
  /\ (exists cs, cities d = Returned cs
                 /\ NoDup cs /\ Sorted str_le cs
                 /\ forall x, In x cs <-> exists r, In r (rows d) /\ cell_at c_city r = CStr x).
Proof.
  intros Hs. split.
  - eexists. split; [apply regions_schema, Hs|].
    destruct (options_of_column (map (cell_at c_state) (rows d))) as [A [B C]].
    split; [exact A|]. split; [exact B|]. intros x. rewrite C, in_map_iff.
    split; intros [r [H1 H2]]; exists r; tauto.
  - eexists. split.
    + unfold cities. rewrite series_schema by (assumption || (cbn; tauto)). reflexivity.
    + destruct (options_of_column (map (cell_at c_city) (rows d))) as [A [B C]].
      split; [exact A|]. split; [exact B|]. intros x. rewrite C, in_map_iff.
      split; intros [r [H1 H2]]; exists r; tauto.
Qed.

Lemma filter_options_witness :
  schema example_table
  /\ (exists rs, regions example_table = Returned rs
                 /\ NoDup rs /\ Sorted str_le rs
                 /\ forall x, In x rs
                              <-> exists r, In r (rows example_table)
                                            /\ cell_at c_state r = CStr x)
  /\ (exists cs, cities example_table = Returned cs
                 /\ NoDup cs /\ Sorted str_le cs
                 /\ forall x, In x cs
                              <-> exists r, In r (rows example_table)
                                            /\ cell_at c_city r = CStr x).
Proof.
  assert (H : schema example_table) by apply normalized_schema.
  split; [exact H|]. exact (@filter_options example_table H).
Defined.

(** X11: the city options are taken from the rows left by the region
    stage: each offered city belongs to a row of the frame whose state is
    among the selected regions; and when every row left has a string under
    city, selecting all the offered cities keeps those rows as they are. *)
Theorem city_options_follow_regions (d : frame) (R : list pystr) :
  schema d ->
  (forall r, In r (rows d) -> exists s, cell_at c_city r = CStr s) ->
  exists d1 cs,
    region_stage R d = Returned d1
    /\ cities d1 = Returned cs
    /\ (forall x, In x cs ->
          exists r s, In r (rows d) /\ cell_at c_state r = CStr s /\ In s R
                      /\ cell_at c_city r = CStr x)
    /\ city_stage cs d1 = Returned d1.
Proof.
  intros Hs Hc.
  assert (Hs1 : schema (select (in_regions R) d)) by apply schema_select, Hs.
  destruct (filter_options Hs1) as [_ [cs [Ec [_ [_ Hcs]]]]].
  exists (select (in_regions R) d), cs.
  split; [apply region_stage_schema, Hs|]. split; [exact Ec|]. split.
  - intros x Hx. apply Hcs in Hx. destruct Hx as [r [Hr Hx]].
    unfold select in Hr. cbn [rows] in Hr. apply filter_In in Hr. destruct Hr as [Hr Hin].
    unfold in_regions in Hin. destruct (cell_at c_state r) as [| |s] eqn:Est; try discriminate Hin.
    exists r, s. cbn [isin] in Hin. apply mem_In in Hin. tauto.
  - rewrite city_stage_schema by exact Hs1. f_equal. apply select_all.
    intros r Hr. unfold in_cities. destruct cs as [|c cs']; [reflexivity|].
    assert (Hr' : In r (rows d)).
    { unfold select in Hr. cbn [rows] in Hr. apply filter_In in Hr. tauto. }
    destruct (Hc r Hr') as [s Es]. rewrite Es. cbn [isin]. apply mem_In, Hcs.
    exists r. tauto.
Qed.

Lemma example_table_cities (r : row) :
  In r (rows example_table) -> exists s, cell_at c_city r = CStr s.
Proof.
  intros H. apply row_of_in in H. destruct H as [d [Hd ->]]. eexists.
  apply normalize_row_city, built_row_binds; [exact Hd | cbn; tauto].
Qed.

Lemma city_options_follow_regions_witness :
  schema example_table
  /\ (forall r, In r (rows example_table) -> exists s, cell_at c_city r = CStr s)
  /\ exists d1 cs,
       region_stage [py "Chile-V"] example_table = Returned d1
       /\ cities d1 = Returned cs
       /\ (forall x, In x cs ->
             exists r s, In r (rows example_table) /\ cell_at c_state r = CStr s
                         /\ In s [py "Chile-V"] /\ cell_at c_city r = CStr x)
       /\ city_stage cs d1 = Returned d1.
Proof.
  assert (H : schema example_table) by apply normalized_schema.
  split; [exact H|]. split; [exact example_table_cities|].
  exact (@city_options_follow_regions example_table [py "Chile-V"] H example_table_cities).
Defined.

(** ** How the pipeline responds to its criteria *)

Lemma filter_mono_subseq (A : Type) (f g : A -> bool) (l : list A) :
  (forall x, f x = true -> g x = true) -> subseq (filter f l) (filter g l).
Proof.
  intros H. induction l as [|x l IH]; cbn [filter]; [constructor|].
  destruct (f x) eqn:Ef.
  - rewrite (H x Ef). apply subseq_keep. exact IH.
  - destruct (g x); [apply subseq_skip; exact IH | exact IH].
Qed.

Lemma in_regions_mono (R R' : list pystr) (r : row) :
  incl R R' -> in_regions R r = true -> in_regions R' r = true.
Proof.
  unfold in_regions. intros Hi. destruct (cell_at c_state r); cbn [isin]; try discriminate.
  intros H. apply mem_In. apply Hi. apply mem_In. exact H.
Qed.

(** X12: with the same cities and query, selecting more regions keeps at
    least the rows kept before, in the same order; selecting no region
    keeps no row, whatever the cities and the query. *)
Theorem wider_region_selection_keeps_more (tbl : case_table) (d d1 d2 : frame)
    (R R' C : list pystr) (text : pystr) :
  schema d ->
  incl R R' ->
  df_filtered tbl d R C text = Returned d1 ->
  df_filtered tbl d R' C text = Returned d2 ->
  subseq (rows d1) (rows d2)
  /\ (forall d0, df_filtered tbl d [] C text = Returned d0 -> rows d0 = []).
Proof.
  intros Hs Hi H1 H2. rewrite df_filtered_schema in H1, H2 by exact Hs. split.
  - destruct (text_predicate tbl text) as [p|e|]; cbn [bind] in H1, H2; try discriminate.
    injection H1 as <-. injection H2 as <-. unfold select. cbn [rows].
    apply filter_mono_subseq. intros r Hr.
    apply andb_true_iff in Hr. destruct Hr as [Hr Hp].
    apply andb_true_iff in Hr. destruct Hr as [Hr Hc].
    rewrite (in_regions_mono r Hi Hr), Hc, Hp. reflexivity.
  - intros d0 H0. rewrite df_filtered_schema in H0 by exact Hs.
    destruct (text_predicate tbl text) as [p|e|]; cbn [bind] in H0; try discriminate.
    injection H0 as <-. unfold select. cbn [rows].
    induction (rows d) as [|r l IH]; [reflexivity|]. cbn [filter].
    unfold in_regions at 1. destruct (cell_at c_state r); cbn [isin mem existsb andb]; exact IH.
Qed.

Lemma wider_region_selection_keeps_more_witness :
  schema example_table
  /\ incl [py "Chile-V"] [py "Chile-RM"; py "Chile-V"]
  /\ df_filtered latin1_table example_table [py "Chile-V"] [] (py "ce")
     = Returned (select (in_regions [py "Chile-V"]) example_table)
  /\ df_filtered latin1_table example_table [py "Chile-RM"; py "Chile-V"] [] (py "ce")
     = Returned example_table
  /\ subseq (rows (select (in_regions [py "Chile-V"]) example_table)) (rows example_table)
  /\ (forall d0, df_filtered latin1_table example_table [] [] (py "ce") = Returned d0 ->
        rows d0 = []).
Proof.
  assert (H : schema example_table) by apply normalized_schema.
  assert (I : incl [py "Chile-V"] [py "Chile-RM"; py "Chile-V"])
    by (intros x Hx; right; exact Hx).
  assert (F1 : df_filtered latin1_table example_table [py "Chile-V"] [] (py "ce")
               = Returned (select (in_regions [py "Chile-V"]) example_table))
    by (vm_compute; reflexivity).
  assert (F2 : df_filtered latin1_table example_table [py "Chile-RM"; py "Chile-V"] [] (py "ce")
               = Returned example_table)
    by (vm_compute; reflexivity).
  split; [exact H|]. split; [exact I|]. split; [exact F1|]. split; [exact F2|].
  exact (@wider_region_selection_keeps_more latin1_table example_table _ _
           [py "Chile-V"] [py "Chile-RM"; py "Chile-V"] [] (py "ce") H I F1 F2).
Defined.

(** X13: the pipeline changes no column, and filtering its result once
    more with the same selections and query gives that result again. *)
Theorem filtering_twice_changes_nothing (tbl : case_table) (d d' : frame)
    (R C : list pystr) (text : pystr) :
  schema d ->
  df_filtered tbl d R C text = Returned d' ->
  columns d' = columns d
  /\ df_filtered tbl d' R C text = Returned d'.
Proof.
  intros Hs H. pose proof H as H0. rewrite df_filtered_schema in H by exact Hs.
  destruct (text_predicate tbl text) as [p|e|] eqn:Ep; cbn [bind] in H; try discriminate.
  injection H as <-. split; [reflexivity|].
  rewrite df_filtered_schema by (apply schema_select, Hs). rewrite Ep. cbn [bind].
  rewrite select_select. f_equal. apply select_ext. intros r.
  destruct (in_regions R r && in_cities C r && p r); reflexivity.
Qed.

Lemma filtering_twice_changes_nothing_witness :
  schema example_table
  /\ df_filtered latin1_table example_table [py "Chile-V"] [] (py "ce")
     = Returned (select (in_regions [py "Chile-V"]) example_table)
  /\ columns (select (in_regions [py "Chile-V"]) example_table) = columns example_table
  /\ df_filtered latin1_table (select (in_regions [py "Chile-V"]) example_table)
       [py "Chile-V"] [] (py "ce")
     = Returned (select (in_regions [py "Chile-V"]) example_table).
Proof.
  assert (H : schema example_table) by apply normalized_schema.
  assert (F1 : df_filtered latin1_table example_table [py "Chile-V"] [] (py "ce")
               = Returned (select (in_regions [py "Chile-V"]) example_table))
    by (vm_compute; reflexivity).
  split; [exact H|]. split; [exact F1|].
  exact (@filtering_twice_changes_nothing latin1_table example_table _
           [py "Chile-V"] [] (py "ce") H F1).
Defined.

(** ** Queries that do and do not raise *)

Lemma lstrip_all_space (s : pystr) : forallb is_space s = true -> lstrip s = [].
Proof.
  induction s as [|c s IH]; cbn [forallb lstrip]; [reflexivity|].
  intros H. apply andb_true_iff in H. destruct H as [Hc Hs]. rewrite Hc. apply IH, Hs.
Qed.

(** X14: a search text made of white space only (of any length, Unicode
    spaces included) applies no text filter: the stage returns the frame as
    it is, whatever its columns. *)
Theorem blank_query_is_no_filter (tbl : case_table) (text : pystr) (d : frame) :
  forallb is_space text = true -> text_stage tbl text d = Returned d.
Proof.
  intros H. apply text_stage_blank. unfold strip.
  rewrite (lstrip_all_space text H). reflexivity.
Qed.

Lemma blank_query_is_no_filter_witness :
  forallb is_space [32%N; 9%N; 160%N; 12288%N] = true
  /\ text_stage latin1_table [32%N; 9%N; 160%N; 12288%N] empty_frame = Returned empty_frame.
Proof.
  split; [reflexivity|].
  exact (@blank_query_is_no_filter latin1_table [32%N; 9%N; 160%N; 12288%N] empty_frame eq_refl).
Defined.

(** X15: on a frame with the expected columns, a query that has no
    character special to regular expressions once stripped and uppercased
    never makes the pipeline raise: a frame is returned, with the columns of
    the input and a selection of its rows. *)
Theorem plain_query_always_returns (tbl : case_table) (d : frame) (R C : list pystr)
    (text : pystr) :
  schema d ->
  plain (upper tbl (strip text)) = true ->
  exists d', df_filtered tbl d R C text = Returned d'
             /\ columns d' = columns d /\ subseq (rows d') (rows d).
Proof.
  intros Hs Hp. rewrite df_filtered_schema by exact Hs. unfold text_predicate.
  destruct (upper tbl (strip text)) as [|c q] eqn:E.
  - eexists. split; [reflexivity|]. split; [reflexivity | apply filter_subseq].
  - rewrite str_contains_plain by exact Hp.
    eexists. split; [reflexivity|]. split; [reflexivity | apply filter_subseq].
Qed.

Lemma plain_query_always_returns_witness :
  schema example_table
  /\ plain (upper latin1_table (strip (py "o'higgins 12"))) = true
  /\ exists d', df_filtered latin1_table example_table [py "Chile-V"] [] (py "o'higgins 12")
                = Returned d'
                /\ columns d' = columns example_table
                /\ subseq (rows d') (rows example_table).
Proof.
  assert (H : schema example_table) by apply normalized_schema.
  split; [exact H|]. split; [reflexivity|].
  exact (@plain_query_always_returns latin1_table example_table [py "Chile-V"] []
           (py "o'higgins 12") H eq_refl).
Defined.

Lemma upper_ascii_cons (tbl : case_table) (c : N) (s : pystr) :
  ascii_case tbl -> (c < 128)%N -> upper tbl (c :: s) = ascii_upper c :: upper tbl s.
Proof. intros Ht Hc. unfold upper. cbn [flat_map]. rewrite (Ht c Hc). reflexivity. Qed.

(** X16: on a frame with the expected columns, a search text that starts
    with one of the repetition characters [*], [+] or [?] makes the
    pipeline raise [re.error], whatever follows in the text, whatever the
    selections, and even when the frame has no row. *)
Theorem leading_repetition_raises (tbl : case_table) (d : frame) (R C : list pystr)
    (c : N) (rest : pystr) :
  ascii_case tbl ->
  schema d ->
  In c [Re.c_star; Re.c_plus; Re.c_quest] ->
  df_filtered tbl d R C (c :: rest) = Raised ReError.
Proof.
  intros Ht Hs Hc.
  assert (Hsp : is_space c = false /\ (c < 128)%N /\ ascii_upper c = c
                /\ forall q, Re.compile (c :: q) = Re.Invalid).
  { cbn [In] in Hc. destruct Hc as [<-|[<-|[<-|[]]]]; repeat split. }
  destruct Hsp as [Hsp [Hlt [Hup Hinv]]].
  assert (E : exists m, upper tbl (strip (c :: rest)) = c :: m).
  { unfold strip. rewrite (@lstrip_fixed c rest Hsp).
    destruct (@rstrip_keeps_head c rest Hsp) as [m Em]. rewrite Em.
    rewrite upper_ascii_cons by assumption. rewrite Hup. eexists. reflexivity. }
  destruct E as [m E].
  apply invalid_query_raises; [exact Hs | rewrite E; discriminate | rewrite E; apply Hinv].
Qed.

Lemma leading_repetition_raises_witness :
  ascii_case latin1_table
  /\ schema (select (fun _ => false) example_table)
  /\ In Re.c_star [Re.c_star; Re.c_plus; Re.c_quest]
  /\ df_filtered latin1_table (select (fun _ => false) example_table) [] [] (Re.c_star :: py "abc")
     = Raised ReError.
Proof.
  assert (H : schema (select (fun _ => false) example_table))
    by apply schema_select, normalized_schema.
  assert (I : In Re.c_star [Re.c_star; Re.c_plus; Re.c_quest]) by (left; reflexivity).
  split; [exact latin1_ascii_case|]. split; [exact H|]. split; [exact I|].
  exact (@leading_repetition_raises latin1_table (select (fun _ => false) example_table)
           [] [] Re.c_star (py "abc") latin1_ascii_case H I).
Defined.

(** ** Counts add up *)

Lemma list_sum_perm (l l' : list nat) : Permutation l l' -> list_sum l = list_sum l'.
Proof. induction 1; simpl; lia. Qed.

Lemma list_sum_cons (a : nat) (l : list nat) : list_sum (a :: l) = a + list_sum l.
Proof. reflexivity. Qed.

Lemma count_outside (x : pystr) (xs : list pystr) : ~ In x xs -> count x xs = 0.
Proof.
  intros H. destruct (count x xs) eqn:E; [reflexivity|].
  exfalso. apply H, count_pos. lia.
Qed.

Lemma sum_split (f : pystr -> nat) (x : pystr) (l : list pystr) :
  NoDup l ->
  list_sum (map f l)
  = (if mem x l then f x else 0)
    + list_sum (map f (filter (fun y => negb (str_eqb x y)) l)).
Proof.
  unfold mem. induction 1 as [|k l Hk Hl IH]; [reflexivity|].
  cbn [map filter existsb]. rewrite list_sum_cons.
  destruct (str_eqb x k) eqn:E; cbn [negb orb].
  - apply str_eqb_eq in E. subst k.
    rewrite filter_all; [reflexivity|].
    intros y Hy. apply negb_true_iff, str_eqb_neq. intros ->. contradiction.
  - cbn [map]. rewrite list_sum_cons, IH. lia.
Qed.

Lemma sum_of_counts (xs : list pystr) :
  list_sum (map (fun k => count k xs) (unique xs)) = List.length xs.
Proof.
  induction xs as [|x xs IH]; [reflexivity|].
  cbn [unique map List.length]. rewrite list_sum_cons.
  assert (E : map (fun k => count k (x :: xs)) (filter (fun y => negb (str_eqb x y)) (unique xs))
              = map (fun k => count k xs) (filter (fun y => negb (str_eqb x y)) (unique xs))).
  { apply map_ext_in. intros k Hk. apply filter_In in Hk. destruct Hk as [_ Hk].
    apply negb_true_iff in Hk. cbn [count]. rewrite str_eqb_sym, Hk. reflexivity. }
  rewrite E. cbn [count]. rewrite str_eqb_refl. rewrite <- IH.
  rewrite (sum_split (fun k => count k xs) x (unique_NoDup xs)).
  destruct (mem x (unique xs)) eqn:Em; [lia|].
  rewrite count_outside; [lia|].
  intros H. apply unique_In, mem_In in H. congruence.
Qed.

Lemma dropna_length (d : frame) :
  List.length (dropna (map (cell_at c_state) (rows d)))
  = List.length (filter (fun r => negb (isna (cell_at c_state r))) (rows d)).
Proof.
  induction (rows d) as [|r l IH]; [reflexivity|]. cbn [map dropna filter].
  destruct (cell_at c_state r); cbn [isna negb List.length]; rewrite ?IH; reflexivity.
Qed.

(** X17: on a frame with the expected columns, the regions charted are
    the region options of that frame, each exactly once, and the counts
    add up to the number of rows that hold a string under state. *)
Theorem counts_cover_the_rows (d : frame) :
  schema d ->
  exists t rs,
    counts_region d = Returned t
    /\ regions d = Returned rs
    /\ Permutation (map fst t) rs
    /\ list_sum (map snd t)
       = List.length (filter (fun r => negb (isna (cell_at c_state r))) (rows d)).
Proof.
  intros Hs. do 2 eexists.
  split; [apply counts_region_value, Hs; cbn; tauto|].
  split; [apply regions_schema, Hs|].
  set (xs := dropna (map (cell_at c_state) (rows d))).
  set (tally := map (fun k => (k, count k xs)) (unique xs)).
  assert (P : Permutation tally (sort_counts_desc (value_counts (map (cell_at c_state) (rows d))))).
  { unfold value_counts. fold xs. fold tally.
    etransitivity; [apply sort_counts_desc_perm|]. apply sort_counts_desc_perm. }
  split.
  - rewrite <- (Permutation_map fst P). unfold tally. rewrite map_map. cbn [fst].
    rewrite map_id. unfold sorted. apply sort_perm.
  - rewrite <- (list_sum_perm (Permutation_map snd P)). unfold tally.
    rewrite map_map. cbn [snd]. rewrite sum_of_counts. unfold xs. apply dropna_length.
Qed.

Lemma counts_cover_the_rows_witness :
  schema (normalized latin1_table aab_records)
  /\ exists t rs,
       counts_region (normalized latin1_table aab_records) = Returned t
       /\ regions (normalized latin1_table aab_records) = Returned rs
       /\ Permutation (map fst t) rs
       /\ list_sum (map snd t)
          = List.length (filter (fun r => negb (isna (cell_at c_state r)))
                           (rows (normalized latin1_table aab_records))).
Proof.
  assert (H : schema (normalized latin1_table aab_records)) by apply normalized_schema.
  split; [exact H|]. exact (@counts_cover_the_rows (normalized latin1_table aab_records) H).
Defined.

(** ** ASCII case *)

Definition ascii_lower_letter (c : N) : bool := ((97 <=? c) && (c <=? 122))%N.

Lemma ascii_upper_facts (c : N) :
  (c < 128)%N ->
  (ascii_upper c < 128)%N
  /\ ascii_lower_letter (ascii_upper c) = false
  /\ ascii_upper (ascii_upper c) = ascii_upper c.
Proof.
  intros Hc. unfold ascii_upper, ascii_lower_letter.
  destruct ((97 <=? c) && (c <=? 122))%N eqn:E.
  - apply andb_true_iff in E. destruct E as [A B]. apply N.leb_le in A, B.
    assert (F : ((97 <=? c - 32) && (c - 32 <=? 122))%N = false).
    { apply andb_false_iff. left. apply N.leb_gt. lia. }
    rewrite F. split; [lia|]. split; reflexivity.
  - rewrite E. split; [exact Hc|]. split; reflexivity.
Qed.

Lemma upper_ascii_idem (tbl : case_table) (s : pystr) :
  ascii_case tbl -> Forall (fun c => (c < 128)%N) s ->
  upper tbl (upper tbl s) = upper tbl s.
Proof.
  intros Ht Hs. rewrite (upper_ascii Ht Hs).
  rewrite upper_ascii; [|exact Ht|].
  - rewrite map_map. apply map_ext_in. intros c Hc.
    rewrite Forall_forall in Hs. apply ascii_upper_facts, Hs, Hc.
  - apply Forall_forall. intros c Hc. apply in_map_iff in Hc. destruct Hc as [x [<- Hx]].
    rewrite Forall_forall in Hs. apply ascii_upper_facts, Hs, Hx.
Qed.

(** X18: with a case table that is CPython's on ASCII, an ASCII callsign
    comes out of the fetch with each letter a-z replaced by A-Z and
    everything else in place; no lowercase ASCII letter is left, and
    uppercasing the result again does not change it. *)
Theorem ascii_callsign_uppercased (tbl : case_table) (url : pystr) (st : N) (rs : pystr)
    (res : option (list record)) (d : record) (s : pystr) :
  ascii_case tbl ->
  passes st = true ->
  In d (results_of res) ->
  lookup c_callsign d = Some (JStr s) ->
  Forall (fun c => (c < 128)%N) s ->
  exists df,
    fetch_data tbl url (Requests.Response st rs (Requests.Decoded (Requests.JObject res)))
    = Returned (mkfetched df [])
    /\ In (row_of tbl (results_of res) d) (rows df)
    /\ cell_at c_callsign (row_of tbl (results_of res) d) = CStr (map ascii_upper s)
    /\ existsb ascii_lower_letter (map ascii_upper s) = false
    /\ upper tbl (map ascii_upper s) = map ascii_upper s.
Proof.
  intros Ht Hst Hd Hl Hs. exists (normalized tbl (results_of res)).
  split; [apply fetch_data_records, Hst|].
  split.
  { apply (Permutation_in _ (Permutation_sym (normalized_perm tbl (results_of res)))).
    apply in_map, Hd. }
  split; [|split].
  - rewrite row_of_callsign by exact Hd.
    rewrite (built_cell_text (results_of res) d c_callsign Hd Hl). cbn [str_of].
    rewrite (upper_ascii Ht Hs). reflexivity.
  - clear Hl. induction Hs as [|c s Hc _ IH]; [reflexivity|].
    cbn [map existsb]. rewrite IH.
    destruct (ascii_upper_facts Hc) as [_ [F _]]. rewrite F. reflexivity.
  - rewrite <- (upper_ascii Ht Hs). apply upper_ascii_idem; assumption.
Qed.

Lemma ascii_callsign_uppercased_witness :
  ascii_case latin1_table
  /\ passes 200 = true
  /\ In padded_record [padded_record]
  /\ lookup c_callsign padded_record = Some (JStr (py "ce3abc"))
  /\ Forall (fun c => (c < 128)%N) (py "ce3abc")
  /\ exists df,
       fetch_data latin1_table API_URL
         (Requests.Response 200 (py "OK")
            (Requests.Decoded (Requests.JObject (Some [padded_record]))))
       = Returned (mkfetched df [])
       /\ In (row_of latin1_table [padded_record] padded_record) (rows df)
       /\ cell_at c_callsign (row_of latin1_table [padded_record] padded_record)
          = CStr (map ascii_upper (py "ce3abc"))
       /\ existsb ascii_lower_letter (map ascii_upper (py "ce3abc")) = false
       /\ upper latin1_table (map ascii_upper (py "ce3abc")) = map ascii_upper (py "ce3abc").
Proof.
  assert (H : In padded_record [padded_record]) by (left; reflexivity).
  assert (F : Forall (fun c => (c < 128)%N) (py "ce3abc"))
    by (repeat constructor).
  split; [exact latin1_ascii_case|]. split; [reflexivity|]. split; [exact H|].
  split; [reflexivity|]. split; [exact F|].
  exact (@ascii_callsign_uppercased latin1_table API_URL 200 (py "OK")
           (Some [padded_record]) padded_record (py "ce3abc")
           latin1_ascii_case eq_refl H eq_refl F).
Defined.

Lemma is_space_ascii_upper (c : N) : is_space (ascii_upper c) = is_space c.
Proof.
  unfold ascii_upper. destruct ((97 <=? c) && (c <=? 122))%N eqn:E; [|reflexivity].
  apply andb_true_iff in E. destruct E as [A B]. apply N.leb_le in A, B.
  assert (Hf : forall x, (65 <= x <= 122)%N -> is_space x = false).
  { intros x Hx. unfold is_space.
    repeat (apply orb_false_iff; split);
      try (apply N.eqb_neq; lia);
      apply andb_false_iff;
      first [left; apply N.leb_gt; lia | right; apply N.leb_gt; lia]. }
  rewrite (Hf c) by lia. apply Hf. lia.
Qed.

Lemma lstrip_map_upper (s : pystr) : lstrip (map ascii_upper s) = map ascii_upper (lstrip s).
Proof.
  induction s as [|c s IH]; [reflexivity|]. cbn [map lstrip].
  rewrite is_space_ascii_upper. destruct (is_space c); [exact IH | reflexivity].
Qed.

Lemma strip_map_upper (s : pystr) : strip (map ascii_upper s) = map ascii_upper (strip s).
Proof.
  unfold strip, rstrip.
  rewrite lstrip_map_upper, <- map_rev, lstrip_map_upper, map_rev. reflexivity.
Qed.

Lemma lstrip_Forall (P : N -> Prop) (s : pystr) : Forall P s -> Forall P (lstrip s).
Proof.
  induction 1 as [|c s Hc Hs IH]; [constructor|]. cbn [lstrip].
  destruct (is_space c); [exact IH | constructor; assumption].
Qed.

Lemma strip_Forall (P : N -> Prop) (s : pystr) : Forall P s -> Forall P (strip s).
Proof.
  intros H. unfold strip, rstrip.
  apply Forall_rev, lstrip_Forall, Forall_rev, lstrip_Forall, H.
Qed.

(** X19: with a case table that is CPython's on ASCII, the ASCII case of
    the search text does not matter: the text with its letters a-z put in
    upper case gives the same outcome of the text stage, on any frame. *)
Theorem query_case_is_ignored (tbl : case_table) (text : pystr) (d : frame) :
  ascii_case tbl ->
  Forall (fun c => (c < 128)%N) text ->
  text_stage tbl (map ascii_upper text) d = text_stage tbl text d.
Proof.
  intros Ht Hs. unfold text_stage. rewrite strip_map_upper.
  pose proof (strip_Forall Hs) as Hs'.
  rewrite <- (upper_ascii Ht Hs'), (upper_ascii_idem Ht Hs'). reflexivity.
Qed.

Lemma query_case_is_ignored_witness :
  ascii_case latin1_table
  /\ Forall (fun c => (c < 128)%N) (py "Valpar")
  /\ text_stage latin1_table (map ascii_upper (py "Valpar")) example_table
     = text_stage latin1_table (py "Valpar") example_table.
Proof.
  assert (F : Forall (fun c => (c < 128)%N) (py "Valpar")) by (repeat constructor).
  split; [exact latin1_ascii_case|]. split; [exact F|].
  exact (@query_case_is_ignored latin1_table (py "Valpar") example_table latin1_ascii_case F).
Defined.
